(** * Verona code generator: entry-point resolution and the emission pipeline

    A shallow embedding of [src/compiler/codegen/codegen.cc]:
    [is_valid_main_signature], [find_entry], [emit_program_header],
    [emit_descriptors], [emit_functions] and [codegen].

    The translation unit only includes the AST, the [Generator], the
    reachability analysis, the selector table and the two per-item emitters;
    their declarations are not part of it.  The AST is modelled by records
    holding the fields the code reads, the collaborating functions are
    parameters, and the [Generator] is modelled from its specified contract. *)

From Stdlib Require Import ZArith List String Lia.
From stdpp Require Import base decidable option list strings gmap.

Local Open Scope string_scope.
Local Open Scope list_scope.

(** ** The AST, as far as the code generator reads it *)

Definition SourceLocation := nat.

Record SourceRange := { first : SourceLocation; second : SourceLocation }.

(** A declared name: its text and where it was written. *)
Record Name := { text : string; source_range : SourceRange }.

Inductive EntityKind := Class | Interface | Primitive.

(** The types declared in other headers ([compiler/ast.h], the analysis and
    the selector table) that the code generator only passes around, tests for
    emptiness or null, or compares by identity. *)
Class ExternTypes := {
  TypePtr : Type;          (* interned type, [==] is identity *)
  TypeParameterDef : Type; (* an element of [generics->types] *)
  Receiver : Type;         (* the explicit [self] parameter of a signature *)
  Field : Type;
  Body : Type;             (* a method body *)
  FnAnalysis : Type;       (* the analysis facts of one method *)
  SelectorTable : Type;
  TypePtr_eq_dec :: EqDecision TypePtr;
  TypeParameterDef_eq_dec :: EqDecision TypeParameterDef;
  Receiver_eq_dec :: EqDecision Receiver;
  Field_eq_dec :: EqDecision Field;
  Body_eq_dec :: EqDecision Body;
}.

Global Instance SourceRange_eq_dec : EqDecision SourceRange.
Proof. solve_decision. Defined.

Global Instance Name_eq_dec : EqDecision Name.
Proof. solve_decision. Defined.

Global Instance EntityKind_eq_dec : EqDecision EntityKind.
Proof. solve_decision. Defined.

Section Ast.
Context `{ExternTypes}.

Record Generics := { types : list TypeParameterDef }.

Record TypeSignature := {
  arguments : list TypePtr;
  return_type : TypePtr;
}.

(** [receiver] and [body] are pointers in the source; [None] is [nullptr]. *)
Record FnSignature := {
  sig_generics : Generics;
  receiver : option Receiver;
  sig_types : TypeSignature;
}.

Record Method := {
  method_name : Name;
  signature : FnSignature;
  body : option Body;
}.

Record Entity := {
  name : Name;
  kind : EntityKind;
  generics : Generics;
  entity_fields : list Field;
  entity_methods : list Method;
}.

Record Program := { program_entities : list Entity }.

(** The part of [Context] the code generator uses outside of diagnostics:
    the interned unit type. *)
Record Context := { mk_unit : TypePtr }.

Record Instantiation := { inst_types : list TypePtr }.

Definition Instantiation_empty : Instantiation := {| inst_types := [] |}.

(** [CodegenItem<T>]: a definition together with an instantiation.  The
    source holds the definition by pointer into the immutable AST; the
    model holds the node itself, so pointer equality becomes equality of
    nodes (a node carries its name and source range). *)
Record CodegenItem (T : Type) := mkCodegenItem {
  definition : T;
  instantiation : Instantiation;
}.
End Ast.

Arguments mkCodegenItem {_ _} _ _.
Arguments definition {_ _} _.
Arguments instantiation {_ _} _.

Section AstDecidable.
Context `{ExternTypes}.

Global Instance Generics_eq_dec : EqDecision Generics.
Proof. solve_decision. Defined.
Global Instance TypeSignature_eq_dec : EqDecision TypeSignature.
Proof. solve_decision. Defined.
Global Instance FnSignature_eq_dec : EqDecision FnSignature.
Proof. solve_decision. Defined.
Global Instance Method_eq_dec : EqDecision Method.
Proof. solve_decision. Defined.
Global Instance Entity_eq_dec : EqDecision Entity.
Proof. solve_decision. Defined.
Global Instance Instantiation_eq_dec : EqDecision Instantiation.
Proof. solve_decision. Defined.
Global Instance CodegenItem_eq_dec {T} `{EqDecision T} :
  EqDecision (CodegenItem T).
Proof. solve_decision. Defined.
End AstDecidable.

(** ** Diagnostics *)

Inductive DiagnosticKind := Error.

Inductive Diagnostic :=
| NoMainClass
| MainNotAClass
| MainClassIsGeneric
| NoMainMethod
| InvalidMainSignature.

(** What a call on [Context] writes to [std::cerr]. *)
Inductive CerrEvent :=
| print_global_diagnostic (k : DiagnosticKind) (d : Diagnostic)
| print_diagnostic (at_ : SourceLocation) (k : DiagnosticKind) (d : Diagnostic)
| print_line_diagnostic (range : SourceRange).

(** The diagnostics proper among the events; [print_line_diagnostic] only
    echoes the source line of the diagnostic before it. *)
Definition diagnostic_of (e : CerrEvent) : option Diagnostic :=
  match e with
  | print_global_diagnostic _ d => Some d
  | print_diagnostic _ _ d => Some d
  | print_line_diagnostic _ => None
  end.

Definition diagnostics (log : list CerrEvent) : list Diagnostic :=
  omap diagnostic_of log.

Section EntryPoint.
Context `{ExternTypes}.

(** Modelled from the spec: [Program::find_entity] (lookup-entity-by-name,
    section 6) is not in this translation unit.  It returns the first
    entity the program owns whose name is the one asked for. *)
Definition find_entity (program : Program) (n : string) : option Entity :=
  List.find (fun e => bool_decide (text (name e) = n)) (program_entities program).

(** Modelled from the spec: [lookup_member<Method>] is not in this
    translation unit.  It returns the method of the entity with the given
    name, if the entity declares one. *)
Definition lookup_member (e : Entity) (n : string) : option Method :=
  List.find (fun m => bool_decide (text (method_name m) = n)) (entity_methods e).

Definition is_empty {A} (l : list A) : bool :=
  match l with [] => true | _ => false end.

Definition is_valid_main_signature
    (context : Context) (signature : FnSignature) : bool :=
  is_empty (types (sig_generics signature))
  && bool_decide (receiver signature = None)
  && is_empty (arguments (sig_types signature))
  && bool_decide (return_type (sig_types signature) = mk_unit context).

(** [find_entry]: the events written to [std::cerr], and the optional
    entry point. *)
Definition find_entry (context : Context) (program : Program)
  : list CerrEvent * option (CodegenItem Entity * CodegenItem Method) :=
  match find_entity program "Main" with
  | None => ([print_global_diagnostic Error NoMainClass], None)
  | Some main_class =>
    if negb (bool_decide (kind main_class = Class)) then
      ([print_diagnostic (first (source_range (name main_class)))
          Error MainNotAClass;
        print_line_diagnostic (source_range (name main_class))], None)
    else if negb (is_empty (types (generics main_class))) then
      ([print_diagnostic (first (source_range (name main_class)))
          Error MainClassIsGeneric;
        print_line_diagnostic (source_range (name main_class))], None)
    else
      match lookup_member main_class "main" with
      | None =>
        ([print_diagnostic (first (source_range (name main_class)))
            Error NoMainMethod;
          print_line_diagnostic (source_range (name main_class))], None)
      | Some main_method =>
        if negb (is_valid_main_signature context (signature main_method))
        then
          ([print_diagnostic
              (first (source_range (method_name main_method)))
              Error InvalidMainSignature;
            print_line_diagnostic
              (source_range (method_name main_method))], None)
        else
          let class_item := mkCodegenItem main_class Instantiation_empty in
          let method_item := mkCodegenItem main_method Instantiation_empty in
          ([], Some (class_item, method_item))
      end
  end.
End EntryPoint.

(** ** The relocatable generator *)

(** Labels and relocatables are indices of slots of the generator. *)
Definition Relocatable := nat.
Definition Label := nat.

Inductive Width := W16 | W32.

Definition width_bytes (w : Width) : nat :=
  match w with W16 => 2 | W32 => 4 end.

(** A pending write: where the placeholder is, which slot it refers to, and
    how wide the value is. *)
Record Relocation := {
  position : nat;
  target : Label;
  width : Width;
}.

(** Modelled from the spec: the state of the [Generator] of
    [compiler/codegen/generator.h], which is not in this translation unit
    (sections 3 and 9): an append-only byte buffer, slots that are unresolved
    or bound to a value, and the pending relocations.  Bytes are integers in
    [0, 256). *)
Record Generator := {
  code : list Z;
  next_label : nat;
  bound : gmap nat nat;
  relocations : list Relocation;
}.

(** The generator [codegen] constructs over the empty vector [code]. *)
Definition Generator_new : Generator :=
  {| code := []; next_label := 0; bound := ∅; relocations := [] |}.

(** Modelled from the spec: a value of a fixed width in a single defined byte
    order (section 4.4); the model takes the least significant byte first. *)
Fixpoint encode_le (n : nat) (v : Z) : list Z :=
  match n with
  | O => []
  | S n' => (v mod 256)%Z :: encode_le n' (v / 256)%Z
  end.

(** Reading a field of the image back, in the same byte order. *)
Fixpoint decode_le (bs : list Z) : Z :=
  match bs with
  | [] => 0%Z
  | b :: bs' => (b + 256 * decode_le bs')%Z
  end.

(** Modelled from the spec: the operations of the [Generator] (section 4.4),
    as the calls a client can make on it. [gen_ref] is the relocation
    reference, written [gen.u32(label)] in the source; [gen_create_label]
    hands out the fresh unresolved labels of section 4.2. *)
Inductive GenCall :=
| gen_u16 (v : Z)
| gen_u32 (v : Z)
| gen_ref (w : Width) (l : Label)
| gen_create_label
| gen_define_label (l : Label)
| gen_define_relocatable (r : Relocatable) (ordinal : nat).

Definition GenReply (c : GenCall) : Type :=
  match c with
  | gen_create_label => Label
  | _ => unit
  end.

(** Code that drives a generator: it returns, throws (an exception or an
    abort, which [codegen] never catches), or calls the generator and goes on
    with the reply. *)
Inductive GenM (A : Type) : Type :=
| Ret (a : A)
| Throw
| Call (c : GenCall) (k : GenReply c -> GenM A).

Arguments Ret {A} a.
Arguments Throw {A}.
Arguments Call {A} c k.

(** Sequencing: what [m] does, then what [f] does with its result. *)
Fixpoint GenM_bind {A B} (f : A -> GenM B) (m : GenM A) : GenM B :=
  match m with
  | Ret a => f a
  | Throw => Throw
  | Call c k => Call c (fun r => GenM_bind f (k r))
  end.

Global Instance GenM_mret : MRet GenM := fun A a => Ret a.
Global Instance GenM_mbind : MBind GenM := fun A B f m => GenM_bind f m.

(** One call on the generator. *)
Definition call (c : GenCall) : GenM (GenReply c) := Call c Ret.

(** Modelled from the spec: binding a slot, fresh or existing, to a value;
    binding a slot that is already bound is fatal (section 4.4). *)
Definition define_slot (id v : nat) (g : Generator) : option Generator :=
  match bound g !! id with
  | Some _ => None
  | None =>
    Some {| code := code g; next_label := next_label g;
            bound := <[id := v]> (bound g);
            relocations := relocations g |}
  end.

(** Scalar emission appends at the end of the buffer. *)
Definition append (bs : list Z) (g : Generator) : Generator :=
  {| code := code g ++ bs; next_label := next_label g;
     bound := bound g; relocations := relocations g |}.

(** Modelled from the spec: what each operation does to the generator
    (section 4.4).  [None] is a fatal construction error. *)
Definition step (c : GenCall) (g : Generator)
  : option (GenReply c * Generator) :=
  match c return option (GenReply c * Generator) with
  | gen_u16 v => Some (tt, append (encode_le 2 v) g)
  | gen_u32 v => Some (tt, append (encode_le 4 v) g)
  | gen_ref w l =>
    Some (tt,
      {| code := code g ++ replicate (width_bytes w) 0%Z;
         next_label := next_label g;
         bound := bound g;
         relocations :=
           relocations g ++
           [{| position := length (code g); target := l; width := w |}] |})
  | gen_create_label =>
    Some (next_label g,
      {| code := code g; next_label := S (next_label g);
         bound := bound g; relocations := relocations g |})
  | gen_define_label l =>
    g' ← define_slot l (length (code g)) g; Some (tt, g')
  | gen_define_relocatable r ordinal =>
    g' ← define_slot r ordinal g; Some (tt, g')
  end.

(** Driving a generator: the state it is left in and the value returned, or
    [None] when the driver throws or an operation is fatal. *)
Fixpoint run {A} (m : GenM A) (g : Generator) : option (A * Generator) :=
  match m with
  | Ret a => Some (a, g)
  | Throw => None
  | Call c k =>
    match step c g with
    | None => None
    | Some (r, g') => run (k r) g'
    end
  end.

(** Modelled from the spec: [finish] (section 4.4) walks the relocations; each
    needs its slot bound, and the placeholder is overwritten with the value of
    the slot. *)
Fixpoint apply_relocations
    (slots : gmap nat nat) (rs : list Relocation) (buffer : list Z)
  : option (list Z) :=
  match rs with
  | [] => Some buffer
  | r :: rs' =>
    match slots !! target r with
    | None => None
    | Some v =>
      apply_relocations slots rs'
        (list_inserts (position r)
           (encode_le (width_bytes (width r)) (Z.of_nat v)) buffer)
    end
  end.

(** [gen.finish()]; the result is the vector [code] that [codegen]
    returns. *)
Definition finish (g : Generator) : option (list Z) :=
  apply_relocations (bound g) (relocations g) (code g).

(** ** Reachability, as the emitters read it *)

(** A [std::map] in iteration order; the keys are distinct. *)
Abbreviation Map K V := (list (K * V)) (only parsing).

(** The value stored under a key, if there is one.  Keys are compared as
    nodes, where the source compares the addresses of nodes: an entry the
    source finds is found here, and the converse holds as long as distinct
    nodes of the AST differ in content. *)
Fixpoint Map_find {K V} `{EqDecision K} (m : Map K V) (k : K) : option V :=
  match m with
  | [] => None
  | (k', v) :: m' => if decide (k' = k) then Some v else Map_find m' k
  end.

(** [std::optional::value] and [std::map::at] throw when there is nothing. *)
Definition value {A} (o : option A) : GenM A :=
  match o with Some a => Ret a | None => Throw end.

Definition Map_at {K V} `{EqDecision K} (m : Map K V) (k : K) : GenM V :=
  value (Map_find m k).

Section Reachability.
Context `{ExternTypes}.

Record MethodReachability := { label : option Label }.

Record EntityReachability := {
  descriptor : Relocatable;
  methods : Map (CodegenItem Method) MethodReachability;
}.

Record Reachability := {
  entities : Map (CodegenItem Entity) EntityReachability;
}.

Record AnalysisResults := { functions : Map Method FnAnalysis }.
End Reachability.

(** The functions [codegen.cc] calls whose definitions are elsewhere in the
    repository: the reachability analysis, the construction of the selector
    table, the per-entity and per-method emitters, and [truncate<uint16_t>]
    of [ds/helpers.h].  They reach the generator through its operations only.
    [truncate_uint16] gives [None] when the call does not return. *)
Class Collaborators `{ExternTypes} := {
  compute_reachability :
    Context -> CodegenItem Entity -> CodegenItem Method ->
    AnalysisResults -> GenM Reachability;
  SelectorTable_build : Reachability -> SelectorTable;
  emit_descriptor :
    SelectorTable -> CodegenItem Entity -> EntityReachability -> GenM unit;
  emit_function :
    Context -> Reachability -> SelectorTable -> CodegenItem Method ->
    FnAnalysis -> GenM unit;
  truncate_uint16 : nat -> option Z;
}.

Section Pipeline.
Context `{Collaborators}.

Definition emit_program_header
    (reachability : Reachability)
    (main_class : CodegenItem Entity) (main_method : CodegenItem Method)
  : GenM unit :=
  class_info ← Map_at (entities reachability) main_class;
  method_info ← Map_at (methods class_info) main_method;
  (* Offset to the entrypoint *)
  l ← value (label method_info);
  call (gen_ref W32 l);;
  (* Number of descriptors *)
  n ← value (truncate_uint16 (length (entities reachability)));
  call (gen_u16 n).

(** The loop of [emit_descriptors], from the entity at position [index]. *)
Fixpoint emit_descriptors_from
    (selectors : SelectorTable) (index : nat)
    (es : Map (CodegenItem Entity) EntityReachability) : GenM unit :=
  match es with
  | [] => Ret tt
  | (entity, info) :: es' =>
    call (gen_define_relocatable (descriptor info) index);;
    emit_descriptor selectors entity info;;
    emit_descriptors_from selectors (S index) es'
  end.

Definition emit_descriptors
    (reachability : Reachability) (selectors : SelectorTable) : GenM unit :=
  emit_descriptors_from selectors 0 (entities reachability).

(** The inner loop of [emit_functions], over the methods of one entity. *)
Fixpoint emit_functions_methods
    (context : Context) (analysis : AnalysisResults)
    (reachability : Reachability) (selectors : SelectorTable)
    (ms : Map (CodegenItem Method) MethodReachability) : GenM unit :=
  match ms with
  | [] => Ret tt
  | (method, method_info) :: ms' =>
    match body (definition method) with
    | None =>
      emit_functions_methods context analysis reachability selectors ms'
    | Some _ =>
      l ← value (label method_info);
      call (gen_define_label l);;
      fn_analysis ← Map_at (functions analysis) (definition method);
      emit_function context reachability selectors method fn_analysis;;
      emit_functions_methods context analysis reachability selectors ms'
    end
  end.

(** The outer loop of [emit_functions], over the entities. *)
Fixpoint emit_functions_entities
    (context : Context) (analysis : AnalysisResults)
    (reachability : Reachability) (selectors : SelectorTable)
    (es : Map (CodegenItem Entity) EntityReachability) : GenM unit :=
  match es with
  | [] => Ret tt
  | (entity, entity_info) :: es' =>
    emit_functions_methods context analysis reachability selectors
      (methods entity_info);;
    emit_functions_entities context analysis reachability selectors es'
  end.

Definition emit_functions
    (context : Context) (analysis : AnalysisResults)
    (reachability : Reachability) (selectors : SelectorTable) : GenM unit :=
  emit_functions_entities context analysis reachability selectors
    (entities reachability).

(** What [codegen] does with the generator once the entry point is known, up
    to [gen.finish()]. *)
Definition emit_program
    (context : Context) (analysis : AnalysisResults)
    (entry : CodegenItem Entity * CodegenItem Method) : GenM unit :=
  reachability ←
    compute_reachability context (fst entry) (snd entry) analysis;
  let selectors := SelectorTable_build reachability in
  emit_program_header reachability (fst entry) (snd entry);;
  emit_descriptors reachability selectors;;
  emit_functions context analysis reachability selectors.

(** How a call of [codegen] ends: it returns bytes, or it does not return
    (an exception or a fatal error inside the pipeline). *)
Inductive Outcome :=
| Returned (bytes : list Z)
| Aborted.

(** [codegen]: the events written to [std::cerr] by entry-point resolution,
    and the outcome. *)
Definition codegen
    (context : Context) (program : Program) (analysis : AnalysisResults)
  : list CerrEvent * Outcome :=
  let (log, entry) := find_entry context program in
  match entry with
  | None => (log, Returned [])
  | Some entry =>
    match run (emit_program context analysis entry) Generator_new with
    | None => (log, Aborted)
    | Some (_, gen) =>
      match finish gen with
      | None => (log, Aborted)
      | Some bytes => (log, Returned bytes)
      end
    end
  end.
End Pipeline.

(** ** The emitters as the specification words them *)

(** Two drivers are alike when they make the same calls on the generator, in
    the same order, and end the same way. *)
Inductive GenM_eq {A : Type} : GenM A -> GenM A -> Prop :=
| GenM_eq_Ret (a : A) : GenM_eq (Ret a) (Ret a)
| GenM_eq_Throw : GenM_eq Throw Throw
| GenM_eq_Call (c : GenCall) (k1 k2 : GenReply c -> GenM A) :
    (forall r, GenM_eq (k1 r) (k2 r)) -> GenM_eq (Call c k1) (Call c k2).

(** What a generator keeps while it is driven: the buffer only gets longer,
    bound slots stay bound to the same value, and the relocations recorded
    meanwhile lie in the part of the buffer written meanwhile. *)
Record grows (g g' : Generator) : Prop := {
  grows_code : code g `prefix_of` code g';
  grows_bound : bound g ⊆ bound g';
  grows_relocations :
    exists rs, relocations g' = relocations g ++ rs
               /\ Forall (fun r => length (code g) <= position r) rs;
}.

(** One action per element, in the order of the list. *)
Fixpoint for_each {X : Type} (f : X -> GenM unit) (xs : list X) : GenM unit :=
  match xs with
  | [] => Ret tt
  | x :: xs' => f x;; for_each f xs'
  end.

Section Worded.
Context `{Collaborators}.

(** The four conditions of a valid signature, as the specification lists
    them. *)
Definition valid_main_signature (context : Context) (s : FnSignature) : Prop :=
  types (sig_generics s) = []
  /\ receiver s = None
  /\ arguments (sig_types s) = []
  /\ return_type (sig_types s) = mk_unit context.

(** The reachability analysis allocates labels and leaves the buffer and the
    relocations as they are (section 4.2). *)
Definition reachability_emits_nothing : Prop :=
  forall context c m analysis g reachability g',
    run (compute_reachability context c m analysis) g
    = Some (reachability, g') ->
    code g' = code g /\ relocations g' = relocations g.

(** When [truncate<uint16_t>] returns, it returns its argument cast to
    [uint16_t]. *)
Definition truncate_narrows : Prop :=
  forall n v, truncate_uint16 n = Some v -> v = (Z.of_nat n mod 65536)%Z.

(** Every reachable method with its record, entity by entity, in the
    iteration order of the graph. *)
Definition reachable_methods (reachability : Reachability)
  : list (CodegenItem Method * MethodReachability) :=
  flat_map (fun entry => methods (snd entry)) (entities reachability).

Definition has_body (entry : CodegenItem Method * MethodReachability) : bool :=
  match body (definition (fst entry)) with Some _ => true | None => false end.

(** Section 4.6 for one method: bind its code label at the current offset,
    then translate its body. *)
Definition emit_method
    (context : Context) (analysis : AnalysisResults)
    (reachability : Reachability) (selectors : SelectorTable)
    (entry : CodegenItem Method * MethodReachability) : GenM unit :=
  l ← value (label (snd entry));
  call (gen_define_label l);;
  fn_analysis ← Map_at (functions analysis) (definition (fst entry));
  emit_function context reachability selectors (fst entry) fn_analysis.

(** The reachable methods that have a body, in the graph's order. *)
Definition emitted_methods (reachability : Reachability)
  : list (CodegenItem Method * MethodReachability) :=
  filter (fun entry => has_body entry = true) (reachable_methods reachability).

(** Section 4.6: each reachable method with a body, in the graph's order;
    the others are skipped. *)
Definition emit_functions_worded
    (context : Context) (analysis : AnalysisResults)
    (reachability : Reachability) (selectors : SelectorTable) : GenM unit :=
  for_each (emit_method context analysis reachability selectors)
    (emitted_methods reachability).

(** Section 4.5 for the entity at position [k]: register its descriptor at
    index [k], then emit the record. *)
Definition emit_entity
    (selectors : SelectorTable)
    (entry : nat * (CodegenItem Entity * EntityReachability)) : GenM unit :=
  call (gen_define_relocatable (descriptor (snd (snd entry))) (fst entry));;
  emit_descriptor selectors (fst (snd entry)) (snd (snd entry)).

(** Section 4.5: each reachable entity with its 0-based position. *)
Definition emit_descriptors_worded
    (reachability : Reachability) (selectors : SelectorTable) : GenM unit :=
  for_each (emit_entity selectors)
    (zip (seq 0 (length (entities reachability))) (entities reachability)).
End Worded.

(** ** A small program and stand-ins for the collaborators *)

Module Sample.

Definition extern_types : ExternTypes :=
  {| TypePtr := string; TypeParameterDef := string; Receiver := string;
     Field := string; Body := list Z; FnAnalysis := nat;
     SelectorTable := nat |}.

#[local] Existing Instance extern_types.

Definition context : Context := {| mk_unit := "Unit" |}.

Definition at_line (n : nat) (s : string) : Name :=
  {| text := s; source_range := {| first := n; second := n + String.length s |} |}.

Definition sig (gs : list string) (self : option string)
    (args : list string) (ret : string) : FnSignature :=
  {| sig_generics := {| types := gs |}; receiver := self;
     sig_types := {| arguments := args; return_type := ret |} |}.

(** [main(): Unit { ... }] *)
Definition main_method : Method :=
  {| method_name := at_line 2 "main"; signature := sig [] None [] "Unit";
     body := Some [7; 300]%Z |}.

(** [main(x: Int): Unit { ... }] *)
Definition main_with_argument : Method :=
  {| method_name := at_line 2 "main";
     signature := sig [] None ["Int"] "Unit"; body := Some [7]%Z |}.

Definition helper_method : Method :=
  {| method_name := at_line 3 "helper"; signature := sig [] None [] "Unit";
     body := None |}.

Definition entity (k : EntityKind) (n : string) (gs : list string)
    (ms : list Method) : Entity :=
  {| name := at_line 1 n; kind := k; generics := {| types := gs |};
     entity_fields := []; entity_methods := ms |}.

(** [class Main { main(): Unit { ... } helper(): Unit; }] *)
Definition main_class : Entity :=
  entity Class "Main" [] [main_method; helper_method].

Definition program : Program := {| program_entities := [main_class] |}.

(** A program without [Main]. *)
Definition program_without_main : Program :=
  {| program_entities := [entity Class "Other" [] [main_method]] |}.

(** [interface Main { main(x: Int): Unit { ... } }] *)
Definition program_interface : Program :=
  {| program_entities := [entity Interface "Main" [] [main_with_argument]] |}.

(** [class Main[T] { main(x: Int): Unit { ... } }] *)
Definition program_generic : Program :=
  {| program_entities := [entity Class "Main" ["T"] [main_with_argument]] |}.

(** [class Main[T] { helper(): Unit; }] *)
Definition program_generic_no_main : Program :=
  {| program_entities := [entity Class "Main" ["T"] [helper_method]] |}.

(** [class Main { helper(): Unit; }] *)
Definition program_no_main_method : Program :=
  {| program_entities := [entity Class "Main" [] [helper_method]] |}.

(** [class Main { main(x: Int): Unit { ... } }] *)
Definition program_bad_signature : Program :=
  {| program_entities := [entity Class "Main" [] [main_with_argument]] |}.

Definition analysis : AnalysisResults :=
  {| functions := [(main_method, 0); (main_with_argument, 0)] |}.

(** The entry class with all its declared methods; a method gets a code
    label when it has a body. *)
Fixpoint label_methods (ms : list Method)
  : GenM (Map (CodegenItem Method) MethodReachability) :=
  match ms with
  | [] => Ret []
  | m :: ms' =>
    info ← match body m with
           | Some _ => l ← call gen_create_label; Ret {| label := Some l |}
           | None => Ret {| label := None |}
           end;
    rest ← label_methods ms';
    Ret ((mkCodegenItem m Instantiation_empty, info) :: rest)
  end.

Definition reach
    (_ : Context) (c : CodegenItem Entity) (_ : CodegenItem Method)
    (_ : AnalysisResults) : GenM Reachability :=
  d ← call gen_create_label;
  ms ← label_methods (entity_methods (definition c));
  Ret {| entities := [(c, {| descriptor := d; methods := ms |})] |}.

(** A descriptor: the number of fields, then a reference to each method
    that has a label. *)
Definition descriptor_of
    (_ : SelectorTable) (e : CodegenItem Entity) (info : EntityReachability)
  : GenM unit :=
  call (gen_u16 (Z.of_nat (length (entity_fields (definition e)))));;
  for_each
    (fun entry : CodegenItem Method * MethodReachability =>
       match label (snd entry) with
       | Some l => call (gen_ref W32 l)
       | None => call (gen_u32 0)
       end)
    (methods info).

(** A body: its words, one after the other. *)
Definition function_of
    (_ : Context) (_ : Reachability) (_ : SelectorTable)
    (m : CodegenItem Method) (_ : FnAnalysis) : GenM unit :=
  match body (definition m) with
  | Some ws => for_each (fun w => call (gen_u16 w)) ws
  | None => Ret tt
  end.

(** The graph [reach] builds for [program] from a new generator. *)
Definition reachability : Reachability :=
  {| entities :=
       [(mkCodegenItem main_class Instantiation_empty,
         {| descriptor := 0;
            methods :=
              [(mkCodegenItem main_method Instantiation_empty,
                {| label := Some 1 |});
               (mkCodegenItem helper_method Instantiation_empty,
                {| label := None |})] |})] |}.

(** A generator that has allocated the two labels of [reachability]. *)
Definition generator : Generator :=
  {| code := []; next_label := 2; bound := ∅; relocations := [] |}.

(** That generator once the header of [reachability] is emitted. *)
Definition generator_with_header : Generator :=
  {| code := [0; 0; 0; 0; 1; 0]%Z; next_label := 2; bound := ∅;
     relocations := [{| position := 0; target := 1; width := W32 |}] |}.

(** The image [codegen] returns for [program] with the stand-ins below:
    the header, the descriptor of [Main], the body of [main]. *)
Definition image : list Z :=
  [16; 0; 0; 0; 1; 0; 0; 0; 16; 0; 0; 0; 0; 0; 0; 0; 7; 0; 44; 1]%Z.

(** [main(): Unit;], a [main] without a body. *)
Definition abstract_main : Method :=
  {| method_name := at_line 2 "main"; signature := sig [] None [] "Unit";
     body := None |}.

(** [class Main { main(): Unit; }] *)
Definition program_abstract_main : Program :=
  {| program_entities := [entity Class "Main" [] [abstract_main]] |}.

(** The graph [reach] builds for [program_abstract_main], and the generator
    it leaves. *)
Definition reachability_abstract_main : Reachability :=
  {| entities :=
       [(mkCodegenItem (entity Class "Main" [] [abstract_main])
           Instantiation_empty,
         {| descriptor := 0;
            methods :=
              [(mkCodegenItem abstract_main Instantiation_empty,
                {| label := None |})] |})] |}.

Definition generator_one_label : Generator :=
  {| code := []; next_label := 1; bound := ∅; relocations := [] |}.

(** A graph with two methods that have a body and one that has none. *)
Definition reachability_two_bodies : Reachability :=
  {| entities :=
       [(mkCodegenItem main_class Instantiation_empty,
         {| descriptor := 0;
            methods :=
              [(mkCodegenItem main_method Instantiation_empty,
                {| label := Some 1 |});
               (mkCodegenItem helper_method Instantiation_empty,
                {| label := None |});
               (mkCodegenItem main_with_argument Instantiation_empty,
                {| label := Some 2 |})] |})] |}.

(** A graph whose only method has no body. *)
Definition reachability_bodiless : Reachability :=
  {| entities :=
       [(mkCodegenItem main_class Instantiation_empty,
         {| descriptor := 0;
            methods :=
              [(mkCodegenItem helper_method Instantiation_empty,
                {| label := None |})] |})] |}.

(** An analysis without any entry. *)
Definition analysis_empty : AnalysisResults := {| functions := [] |}.

(** A narrowing that refuses what does not fit. *)
Definition checked_uint16 (n : nat) : option Z :=
  if (Z.of_nat n <? 65536)%Z then Some (Z.of_nat n) else None.

Definition collaborators : Collaborators :=
  {| compute_reachability := reach;
     SelectorTable_build := fun r => length (entities r);
     emit_descriptor := descriptor_of;
     emit_function := function_of;
     truncate_uint16 := checked_uint16 |}.

(** An entity that nothing refers to, named at position [k]. *)
Definition filler (k : nat) : CodegenItem Entity * EntityReachability :=
  (mkCodegenItem
     {| name := {| text := "Filler";
                   source_range := {| first := k; second := k |} |};
        kind := Class; generics := {| types := [] |}; entity_fields := [];
        entity_methods := [] |}
     Instantiation_empty,
   {| descriptor := S k; methods := [] |}).

(** A graph of [n + 1] entities: the entry class with the entry method,
    then [n] others. *)
Definition reachability_sized
    (n : nat) (c : CodegenItem Entity) (m : CodegenItem Method)
  : Reachability :=
  {| entities :=
       (c, {| descriptor := 1; methods := [(m, {| label := Some 0 |})] |})
       :: map filler (seq 1 n) |}.

(** A narrowing that keeps the low 16 bits. *)
Definition wrapping_uint16 (n : nat) : option Z :=
  Some (Z.of_nat n mod 65536)%Z.

(** Stand-ins with the graph of [n + 1] entities, empty descriptors and the
    wrapping narrowing. *)
Definition collaborators_sized (n : nat) : Collaborators :=
  {| compute_reachability := fun _ c m _ => Ret (reachability_sized n c m);
     SelectorTable_build := fun r => length (entities r);
     emit_descriptor := fun _ _ _ => Ret tt;
     emit_function := function_of;
     truncate_uint16 := wrapping_uint16 |}.

(** The case of 65536 entities. *)
Definition reachability_wide : Reachability :=
  reachability_sized (Z.to_nat 65535)
    (mkCodegenItem main_class Instantiation_empty)
    (mkCodegenItem main_method Instantiation_empty).

Definition collaborators_wide : Collaborators :=
  collaborators_sized (Z.to_nat 65535).

(** The image [codegen] returns for [program] with [collaborators_wide]. *)
Definition image_wide : list Z := [6; 0; 0; 0; 0; 0; 7; 0; 44; 1]%Z.

End Sample.

(** * Properties *)

(** ** Entry-point resolution *)

Section EntryPointFacts.
Context `{Collaborators}.

Lemma find_entity_None (program : Program) (n : string) :
  find_entity program n = None <->
  Forall (fun e => text (name e) <> n) (program_entities program).
Proof.
  unfold find_entity. induction (program_entities program) as [|e es IH]; simpl.
  - split; [constructor | reflexivity].
  - case_bool_decide as Hn.
    + split; [discriminate | intros Hall; inversion Hall; contradiction].
    + rewrite IH. split; [by constructor | by inversion 1].
Qed.

Lemma lookup_member_None (e : Entity) (n : string) :
  lookup_member e n = None <->
  Forall (fun m => text (method_name m) <> n) (entity_methods e).
Proof.
  unfold lookup_member. induction (entity_methods e) as [|m ms IH]; simpl.
  - split; [constructor | reflexivity].
  - case_bool_decide as Hn.
    + split; [discriminate | intros Hall; inversion Hall; contradiction].
    + rewrite IH. split; [by constructor | by inversion 1].
Qed.

Lemma find_entity_Some_name (program : Program) (n : string) (e : Entity) :
  find_entity program n = Some e ->
  e ∈ program_entities program /\ text (name e) = n.
Proof.
  unfold find_entity. intros Hfind. apply List.find_some in Hfind.
  destruct Hfind as [Hin Hname]. split.
  - by apply list_elem_of_In.
  - by apply bool_decide_eq_true in Hname.
Qed.

Lemma is_empty_true {A} (l : list A) : is_empty l = true <-> l = [].
Proof. destruct l; simpl; split; congruence. Qed.

Lemma is_valid_main_signature_spec (context : Context) (s : FnSignature) :
  is_valid_main_signature context s = true <-> valid_main_signature context s.
Proof.
  unfold is_valid_main_signature, valid_main_signature.
  rewrite !andb_true_iff, !is_empty_true, !bool_decide_eq_true. tauto.
Qed.

(** When entry-point resolution fails, [codegen] returns no bytes and has
    written what [find_entry] wrote. *)
Lemma codegen_no_entry
    (context : Context) (program : Program) (analysis : AnalysisResults) :
  snd (find_entry context program) = None ->
  codegen context program analysis
  = (fst (find_entry context program), Returned []).
Proof.
  unfold codegen. destruct (find_entry context program) as [log [entry|]];
    simpl; [discriminate | reflexivity].
Qed.

Lemma find_entry_not_a_class (context : Context) (program : Program)
    (main : Entity) :
  find_entity program "Main" = Some main ->
  kind main <> Class ->
  find_entry context program
  = ([print_diagnostic (first (source_range (name main))) Error MainNotAClass;
      print_line_diagnostic (source_range (name main))], None).
Proof.
  intros Hfind Hkind. unfold find_entry. rewrite Hfind.
  by rewrite bool_decide_eq_false_2.
Qed.

Lemma find_entry_generic (context : Context) (program : Program)
    (main : Entity) :
  find_entity program "Main" = Some main ->
  kind main = Class ->
  types (generics main) <> [] ->
  find_entry context program
  = ([print_diagnostic (first (source_range (name main)))
        Error MainClassIsGeneric;
      print_line_diagnostic (source_range (name main))], None).
Proof.
  intros Hfind Hkind Hgen. unfold find_entry. rewrite Hfind.
  rewrite bool_decide_eq_true_2 by done. simpl.
  destruct (types (generics main)); [done | reflexivity].
Qed.

(** [find_entry] past the checks on the class itself. *)
Lemma find_entry_plain_class (context : Context) (program : Program)
    (main : Entity) :
  find_entity program "Main" = Some main ->
  kind main = Class ->
  types (generics main) = [] ->
  find_entry context program
  = match lookup_member main "main" with
    | None =>
      ([print_diagnostic (first (source_range (name main))) Error NoMainMethod;
        print_line_diagnostic (source_range (name main))], None)
    | Some main_method =>
      if is_valid_main_signature context (signature main_method) then
        ([], Some (mkCodegenItem main Instantiation_empty,
                   mkCodegenItem main_method Instantiation_empty))
      else
        ([print_diagnostic (first (source_range (method_name main_method)))
            Error InvalidMainSignature;
          print_line_diagnostic (source_range (method_name main_method))],
         None)
    end.
Proof.
  intros Hfind Hkind Hgen. unfold find_entry. rewrite Hfind, Hgen.
  rewrite bool_decide_eq_true_2 by done. simpl.
  destruct (lookup_member main "main") as [m|]; [|reflexivity].
  by destruct (is_valid_main_signature context (signature m)).
Qed.

(** C2: a program with no entity named "Main" makes [codegen] return no
    bytes and write exactly one diagnostic, "no main class", to the error
    stream. *)
Theorem codegen_no_main_class
    (context : Context) (program : Program) (analysis : AnalysisResults) :
  Forall (fun e => text (name e) <> "Main") (program_entities program) ->
  codegen context program analysis
  = ([print_global_diagnostic Error NoMainClass], Returned [])
  /\ diagnostics (fst (codegen context program analysis)) = [NoMainClass].
Proof.
  intros Hnone. apply find_entity_None in Hnone.
  assert (find_entry context program
          = ([print_global_diagnostic Error NoMainClass], None)) as Hentry.
  { unfold find_entry. by rewrite Hnone. }
  rewrite codegen_no_entry by (by rewrite Hentry).
  rewrite Hentry. split; reflexivity.
Qed.

(** C4: when the entity named "Main" is not a class, [codegen] returns no
    bytes and reports "main not a class" at the start of Main's name, the
    only diagnostic. *)
Theorem codegen_main_not_a_class
    (context : Context) (program : Program) (analysis : AnalysisResults)
    (main : Entity) :
  find_entity program "Main" = Some main ->
  kind main <> Class ->
  codegen context program analysis
  = ([print_diagnostic (first (source_range (name main))) Error MainNotAClass;
      print_line_diagnostic (source_range (name main))], Returned [])
  /\ diagnostics (fst (codegen context program analysis)) = [MainNotAClass].
Proof.
  intros Hfind Hkind.
  pose proof (find_entry_not_a_class context program main Hfind Hkind) as Hentry.
  rewrite codegen_no_entry by (by rewrite Hentry).
  rewrite Hentry. split; reflexivity.
Qed.

(** C5: when the class "Main" declares a generic parameter, [codegen]
    reports "main class is generic" and returns no bytes, whatever its
    methods and their bodies are. *)
Theorem codegen_main_class_generic
    (context : Context) (program : Program) (analysis : AnalysisResults)
    (main : Entity) :
  find_entity program "Main" = Some main ->
  kind main = Class ->
  types (generics main) <> [] ->
  codegen context program analysis
  = ([print_diagnostic (first (source_range (name main)))
        Error MainClassIsGeneric;
      print_line_diagnostic (source_range (name main))], Returned [])
  /\ diagnostics (fst (codegen context program analysis))
     = [MainClassIsGeneric].
Proof.
  intros Hfind Hkind Hgen.
  pose proof (find_entry_generic context program main Hfind Hkind Hgen)
    as Hentry.
  rewrite codegen_no_entry by (by rewrite Hentry).
  rewrite Hentry. split; reflexivity.
Qed.

(** C6: for a program that passes every entry-point check, [find_entry]
    writes nothing and returns the Main entity and its main method, each
    with the empty instantiation. *)
Theorem find_entry_success
    (context : Context) (program : Program) (main : Entity) (m : Method) :
  find_entity program "Main" = Some main ->
  kind main = Class ->
  types (generics main) = [] ->
  lookup_member main "main" = Some m ->
  is_valid_main_signature context (signature m) = true ->
  find_entry context program
  = ([], Some (mkCodegenItem main Instantiation_empty,
               mkCodegenItem m Instantiation_empty)).
Proof.
  intros Hfind Hkind Hgen Hlookup Hvalid.
  rewrite (find_entry_plain_class context program main) by done.
  by rewrite Hlookup, Hvalid.
Qed.

(** C3, as amended: when the entity "Main" is a class without generic
    parameters and has a method "main", [find_entry] rejects the program with
    "invalid main signature" exactly when the signature is not valid (no
    generic parameters, no receiver, no arguments, unit return type); when
    that class has no method "main", it reports "no main method". *)
Theorem find_entry_main_signature
    (context : Context) (program : Program) (main : Entity) :
  find_entity program "Main" = Some main ->
  kind main = Class ->
  types (generics main) = [] ->
  (forall m, lookup_member main "main" = Some m ->
     (diagnostics (fst (find_entry context program)) = [InvalidMainSignature]
      <-> ~ valid_main_signature context (signature m))
     /\ (~ valid_main_signature context (signature m) ->
         find_entry context program
         = ([print_diagnostic (first (source_range (method_name m)))
               Error InvalidMainSignature;
             print_line_diagnostic (source_range (method_name m))], None)))
  /\ (Forall (fun m => text (method_name m) <> "main") (entity_methods main) ->
      find_entry context program
      = ([print_diagnostic (first (source_range (name main)))
            Error NoMainMethod;
          print_line_diagnostic (source_range (name main))], None)).
Proof.
  intros Hfind Hkind Hgen.
  rewrite (find_entry_plain_class context program main) by done.
  split.
  - intros m Hlookup. rewrite Hlookup.
    rewrite <- is_valid_main_signature_spec.
    destruct (is_valid_main_signature context (signature m)); simpl.
    + split; [split; [discriminate | intros Hno; by destruct Hno] |].
      intros Hno. by destruct Hno.
    + split; [split; [discriminate | reflexivity] | reflexivity].
  - intros Hnone. apply lookup_member_None in Hnone. by rewrite Hnone.
Qed.

End EntryPointFacts.

(** ** The generator *)

Lemma run_bind {A B} (m : GenM A) (f : A -> GenM B) (g : Generator) :
  run (m ≫= f) g
  = match run m g with Some (a, g') => run (f a) g' | None => None end.
Proof.
  revert g. induction m as [a| |c k IH]; intros g; simpl; try reflexivity.
  destruct (step c g) as [[r g']|]; [apply IH | reflexivity].
Qed.

Lemma run_bind_Some {A B} (m : GenM A) (f : A -> GenM B) (g g2 : Generator)
    (b : B) :
  run (m ≫= f) g = Some (b, g2) ->
  exists a g1, run m g = Some (a, g1) /\ run (f a) g1 = Some (b, g2).
Proof.
  rewrite run_bind. destruct (run m g) as [[a g1]|]; [|discriminate].
  intros Hrun. by exists a, g1.
Qed.

Lemma run_value_Some {A} (o : option A) (g g' : Generator) (a : A) :
  run (value o) g = Some (a, g') -> o = Some a /\ g' = g.
Proof. destruct o; simpl; intros Hrun; by simplify_eq. Qed.

Lemma grows_refl (g : Generator) : grows g g.
Proof.
  split; [done | done |]. exists []. by rewrite app_nil_r.
Qed.

Lemma grows_length (g g' : Generator) :
  grows g g' -> length (code g) <= length (code g').
Proof. intros [Hcode _ _]. by apply prefix_length. Qed.

Lemma grows_trans (g1 g2 g3 : Generator) :
  grows g1 g2 -> grows g2 g3 -> grows g1 g3.
Proof.
  intros H12 H23. pose proof (grows_length _ _ H12) as Hlen.
  destruct H12 as [Hc1 Hb1 (rs1 & Hr1 & Hp1)].
  destruct H23 as [Hc2 Hb2 (rs2 & Hr2 & Hp2)].
  split.
  - by transitivity (code g2).
  - by transitivity (bound g2).
  - exists (rs1 ++ rs2). split.
    + by rewrite Hr2, Hr1, app_assoc.
    + apply Forall_app. split; [done|].
      eapply Forall_impl; [exact Hp2|]. simpl. intros r Hr. lia.
Qed.

Lemma define_slot_Some (id v : nat) (g g' : Generator) :
  define_slot id v g = Some g' ->
  bound g !! id = None
  /\ bound g' = <[id := v]> (bound g)
  /\ code g' = code g /\ relocations g' = relocations g.
Proof.
  unfold define_slot. destruct (bound g !! id) eqn:Hid; [discriminate|].
  intros Hdef. by simplify_eq.
Qed.

Lemma define_slot_grows (id v : nat) (g g' : Generator) :
  define_slot id v g = Some g' -> grows g g'.
Proof.
  intros (Hid & Hb & Hc & Hr)%define_slot_Some. split.
  - by rewrite Hc.
  - rewrite Hb. by apply insert_subseteq.
  - exists []. by rewrite Hr, app_nil_r.
Qed.

Lemma step_grows (c : GenCall) (g g' : Generator) (r : GenReply c) :
  step c g = Some (r, g') -> grows g g'.
Proof.
  destruct c; simpl; intros Hstep.
  - simplify_eq. split; simpl; [by apply prefix_app_r | done |].
    exists []. by rewrite app_nil_r.
  - simplify_eq. split; simpl; [by apply prefix_app_r | done |].
    exists []. by rewrite app_nil_r.
  - simplify_eq. split; simpl; [by apply prefix_app_r | done |].
    eexists. split; [reflexivity|]. by repeat constructor.
  - simplify_eq. split; simpl; [done | done |].
    exists []. by rewrite app_nil_r.
  - destruct (define_slot l (length (code g)) g) as [g1|] eqn:Hdef;
      simpl in Hstep; [|discriminate].
    simplify_eq. by eapply define_slot_grows.
  - destruct (define_slot r0 ordinal g) as [g1|] eqn:Hdef;
      simpl in Hstep; [|discriminate].
    simplify_eq. by eapply define_slot_grows.
Qed.

Lemma run_grows {A} (m : GenM A) (g g' : Generator) (a : A) :
  run m g = Some (a, g') -> grows g g'.
Proof.
  revert g. induction m as [a0| |c k IH]; intros g; simpl.
  - intros Hrun. simplify_eq. apply grows_refl.
  - discriminate.
  - destruct (step c g) as [[r g1]|] eqn:Hstep; [|discriminate].
    intros Hrun. eapply grows_trans; [by eapply step_grows | by eapply IH].
Qed.

(** The fixup pass overwrites in place. *)
Lemma apply_relocations_length
    (slots : gmap nat nat) (rs : list Relocation) (buffer out : list Z) :
  apply_relocations slots rs buffer = Some out -> length out = length buffer.
Proof.
  revert buffer. induction rs as [|r rs IH]; intros buffer; simpl.
  - intros Hout. by simplify_eq.
  - destruct (slots !! target r) as [v|]; [|discriminate].
    intros Hout. apply IH in Hout. by rewrite length_inserts in Hout.
Qed.

Lemma take_list_inserts_le {A} (l k : list A) (p n : nat) :
  n <= p -> take n (list_inserts p k l) = take n l.
Proof.
  intros Hle. apply list_eq. intros i. destruct (decide (i < n)).
  - rewrite !lookup_take_lt by done. apply list_lookup_inserts_lt. lia.
  - by rewrite !lookup_take_ge by lia.
Qed.

(** Relocations placed at or after [n] leave the first [n] bytes alone. *)
Lemma apply_relocations_take
    (slots : gmap nat nat) (rs : list Relocation) (buffer out : list Z)
    (n : nat) :
  Forall (fun r => n <= position r) rs ->
  apply_relocations slots rs buffer = Some out -> take n out = take n buffer.
Proof.
  revert buffer. induction rs as [|r rs IH]; intros buffer Hpos; simpl.
  - intros Hout. by simplify_eq.
  - destruct (slots !! target r) as [v|]; [|discriminate].
    inversion Hpos as [|? ? Hr Hrs]; subst.
    intros Hout. rewrite (IH _ Hrs Hout). by apply take_list_inserts_le.
Qed.

Lemma decode_encode_le (n : nat) (v : Z) :
  decode_le (encode_le n v) = (v mod 256 ^ Z.of_nat n)%Z.
Proof.
  revert v. induction n as [|n IH]; intros v.
  - simpl. by rewrite Z.mod_1_r.
  - cbn [encode_le decode_le]. rewrite IH.
    rewrite Nat2Z.inj_succ, Z.pow_succ_r by lia.
    rewrite Z.rem_mul_r by lia. lia.
Qed.

Lemma length_encode_le (n : nat) (v : Z) : length (encode_le n v) = n.
Proof. revert v. induction n as [|n IH]; intros v; simpl; by rewrite ?IH. Qed.

(** ** The pipeline *)

Section PipelineFacts.
Context `{Collaborators}.

(** What a completed [emit_program_header] has done. *)
Lemma emit_program_header_run
    (reachability : Reachability)
    (main_class : CodegenItem Entity) (main_method : CodegenItem Method)
    (g g' : Generator) :
  run (emit_program_header reachability main_class main_method) g
  = Some (tt, g') ->
  exists class_info method_info l v,
    Map_find (entities reachability) main_class = Some class_info
    /\ Map_find (methods class_info) main_method = Some method_info
    /\ label method_info = Some l
    /\ truncate_uint16 (length (entities reachability)) = Some v
    /\ code g' = code g ++ replicate 4 0%Z ++ encode_le 2 v
    /\ bound g' = bound g
    /\ relocations g'
       = relocations g
         ++ [{| position := length (code g); target := l; width := W32 |}].
Proof.
  unfold emit_program_header, Map_at. intros Hrun.
  apply run_bind_Some in Hrun as (class_info & g1 & Hclass & Hrun).
  apply run_value_Some in Hclass as [Hclass ->].
  apply run_bind_Some in Hrun as (method_info & g1 & Hmethod & Hrun).
  apply run_value_Some in Hmethod as [Hmethod ->].
  apply run_bind_Some in Hrun as (l & g1 & Hlabel & Hrun).
  apply run_value_Some in Hlabel as [Hlabel ->].
  apply run_bind_Some in Hrun as ([] & g1 & Href & Hrun).
  apply run_bind_Some in Hrun as (v & g2 & Hcount & Hrun).
  apply run_value_Some in Hcount as [Hcount ->].
  simpl in Href, Hrun. simplify_eq. simpl.
  exists class_info, method_info, l, v.
  by rewrite <- app_assoc.
Qed.

(** C10: the count field of the header is the two-byte encoding of what
    [truncate<uint16_t>] made of the number of reachable entities; it reads
    back as a value below 65536, so it differs from the number of entities
    whenever that number exceeds 65535, and equals it only when the number
    fits in 16 bits. *)
Theorem header_count_narrowed
    (reachability : Reachability)
    (main_class : CodegenItem Entity) (main_method : CodegenItem Method)
    (g g' : Generator) :
  run (emit_program_header reachability main_class main_method) g
  = Some (tt, g') ->
  let count := length (entities reachability) in
  let field := drop (length (code g) + 4) (code g') in
  exists v,
    truncate_uint16 count = Some v
    /\ field = encode_le 2 v
    /\ decode_le field = (v mod 65536)%Z
    /\ ((65535 < Z.of_nat count)%Z -> decode_le field <> Z.of_nat count)
    /\ (decode_le field = Z.of_nat count -> (Z.of_nat count <= 65535)%Z).
Proof.
  intros Hrun count field.
  apply emit_program_header_run in Hrun
    as (class_info & method_info & l & v & _ & _ & _ & Hv & Hcode & _ & _).
  assert (field = encode_le 2 v) as Hfield.
  { unfold field. rewrite Hcode, app_assoc.
    apply drop_app_length'. rewrite length_app, length_replicate. lia. }
  assert (decode_le field = (v mod 65536)%Z) as Hdecode.
  { rewrite Hfield. apply decode_encode_le. }
  exists v. repeat split; try done.
  - intros Hbig. rewrite Hdecode.
    pose proof (Z.mod_pos_bound v 65536). lia.
  - rewrite Hdecode. pose proof (Z.mod_pos_bound v 65536). lia.
Qed.

(** What a completed [emit_program] has done, phase by phase. *)
Lemma emit_program_run
    (context : Context) (analysis : AnalysisResults)
    (entry : CodegenItem Entity * CodegenItem Method) (gen : Generator) :
  run (emit_program context analysis entry) Generator_new = Some (tt, gen) ->
  exists reachability g0 g1,
    run (compute_reachability context (fst entry) (snd entry) analysis)
      Generator_new = Some (reachability, g0)
    /\ run (emit_program_header reachability (fst entry) (snd entry)) g0
       = Some (tt, g1)
    /\ run (emit_descriptors reachability (SelectorTable_build reachability);;
            emit_functions context analysis reachability
              (SelectorTable_build reachability)) g1
       = Some (tt, gen).
Proof.
  unfold emit_program. intros Hrun.
  apply run_bind_Some in Hrun as (reachability & g0 & Hreach & Hrun).
  apply run_bind_Some in Hrun as ([] & g1 & Hheader & Hrun).
  by exists reachability, g0, g1.
Qed.

Lemma emit_program_length
    (context : Context) (analysis : AnalysisResults)
    (entry : CodegenItem Entity * CodegenItem Method) (gen : Generator) :
  run (emit_program context analysis entry) Generator_new = Some (tt, gen) ->
  6 <= length (code gen).
Proof.
  intros (reachability & g0 & g1 & _ & Hheader & Hrest)%emit_program_run.
  apply run_grows, grows_length in Hrest.
  apply emit_program_header_run in Hheader
    as (? & ? & ? & v & _ & _ & _ & _ & Hcode & _ & _).
  rewrite Hcode, !length_app, length_replicate, length_encode_le in Hrest.
  lia.
Qed.

(** How [codegen] ends once the entry point is known. *)
Lemma codegen_entry
    (context : Context) (program : Program) (analysis : AnalysisResults)
    (entry : CodegenItem Entity * CodegenItem Method) :
  snd (find_entry context program) = Some entry ->
  snd (codegen context program analysis)
  = match run (emit_program context analysis entry) Generator_new with
    | None => Aborted
    | Some (_, gen) =>
      match finish gen with
      | None => Aborted
      | Some bytes => Returned bytes
      end
    end.
Proof.
  unfold codegen. destruct (find_entry context program) as [log [e|]];
    simpl; [|discriminate].
  intros Hentry. simplify_eq.
  destruct (run (emit_program context analysis entry) Generator_new)
    as [[[] gen]|]; [|reflexivity].
  by destruct (finish gen).
Qed.

Lemma codegen_entry_Returned
    (context : Context) (program : Program) (analysis : AnalysisResults)
    (entry : CodegenItem Entity * CodegenItem Method) (bytes : list Z) :
  snd (find_entry context program) = Some entry ->
  snd (codegen context program analysis) = Returned bytes ->
  exists gen,
    run (emit_program context analysis entry) Generator_new = Some (tt, gen)
    /\ finish gen = Some bytes.
Proof.
  intros Hentry. rewrite (codegen_entry _ _ _ entry Hentry).
  destruct (run (emit_program context analysis entry) Generator_new)
    as [[[] gen]|]; [|discriminate].
  destruct (finish gen) as [out|] eqn:Hfinish; [|discriminate].
  intros Hout. simplify_eq. by exists gen.
Qed.

(** C1: [codegen] returns the empty byte sequence if and only if entry-point
    resolution failed; when resolution succeeded and [codegen] returns, every
    phase has run to its end and the bytes are the generator's whole buffer
    after the fixup pass of [finish], at least the six bytes of the header. *)
Theorem codegen_empty_iff_no_entry
    (context : Context) (program : Program) (analysis : AnalysisResults) :
  (snd (codegen context program analysis) = Returned []
   <-> snd (find_entry context program) = None)
  /\ (forall entry bytes,
        snd (find_entry context program) = Some entry ->
        snd (codegen context program analysis) = Returned bytes ->
        exists gen,
          run (emit_program context analysis entry) Generator_new
          = Some (tt, gen)
          /\ finish gen = Some bytes
          /\ length bytes = length (code gen)
          /\ 6 <= length bytes).
Proof.
  assert (forall entry bytes,
    snd (find_entry context program) = Some entry ->
    snd (codegen context program analysis) = Returned bytes ->
    exists gen,
      run (emit_program context analysis entry) Generator_new = Some (tt, gen)
      /\ finish gen = Some bytes
      /\ length bytes = length (code gen)
      /\ 6 <= length bytes) as Hsuccess.
  { intros entry bytes Hentry Hout.
    destruct (codegen_entry_Returned _ _ _ _ _ Hentry Hout)
      as (gen & Hrun & Hfinish).
    exists gen. pose proof (apply_relocations_length _ _ _ _ Hfinish) as Hlen.
    pose proof (emit_program_length _ _ _ _ Hrun). repeat split; try done.
    lia. }
  split; [|exact Hsuccess]. split.
  - intros Hempty.
    destruct (snd (find_entry context program)) as [entry|] eqn:Hentry;
      [|reflexivity].
    destruct (Hsuccess entry [] eq_refl Hempty) as (gen & _ & _ & _ & Hlen).
    simpl in Hlen. lia.
  - intros Hnone. by rewrite codegen_no_entry.
Qed.

End PipelineFacts.


(** ** Drivers that make the same calls *)

Lemma GenM_eq_inv {A} (m1 m2 : GenM A) :
  GenM_eq m1 m2 ->
  match m1 with
  | Ret a => m2 = Ret a
  | Throw => m2 = Throw
  | Call c k1 => exists k2, m2 = Call c k2 /\ forall r, GenM_eq (k1 r) (k2 r)
  end.
Proof. intros Heq. destruct Heq; eauto. Qed.

Global Instance GenM_eq_refl {A} : Reflexive (@GenM_eq A).
Proof. intros m. induction m; constructor; auto. Qed.

Global Instance GenM_eq_sym {A} : Symmetric (@GenM_eq A).
Proof. intros m1 m2 Heq. induction Heq; constructor; auto. Qed.

Global Instance GenM_eq_trans {A} : Transitive (@GenM_eq A).
Proof.
  intros m1. induction m1 as [a| |c k1 IH]; intros m2 m3 H12 H23.
  - apply GenM_eq_inv in H12 as ->. exact H23.
  - apply GenM_eq_inv in H12 as ->. exact H23.
  - apply GenM_eq_inv in H12 as (k2 & -> & Hk12).
    apply GenM_eq_inv in H23 as (k3 & -> & Hk23).
    constructor. intros r. eapply IH; [apply Hk12 | apply Hk23].
Qed.

Lemma GenM_eq_bind {A B} (m1 m2 : GenM A) (f1 f2 : A -> GenM B) :
  GenM_eq m1 m2 -> (forall a, GenM_eq (f1 a) (f2 a)) ->
  GenM_eq (m1 ≫= f1) (m2 ≫= f2).
Proof.
  intros Hm Hf. induction Hm as [a| |c k1 k2 Hk IH].
  - apply Hf.
  - constructor.
  - constructor. exact IH.
Qed.

Lemma GenM_eq_bind_assoc {A B C} (m : GenM A) (f : A -> GenM B)
    (h : B -> GenM C) :
  GenM_eq ((m ≫= f) ≫= h) (m ≫= fun a => f a ≫= h).
Proof.
  induction m as [a| |c k IH].
  - reflexivity.
  - constructor.
  - constructor. exact IH.
Qed.

(** Drivers that make the same calls leave any generator in the same
    state. *)
Lemma GenM_eq_run {A} (m1 m2 : GenM A) (g : Generator) :
  GenM_eq m1 m2 -> run m1 g = run m2 g.
Proof.
  intros Heq. revert g. induction Heq as [a| |c k1 k2 Hk IH]; intros g;
    simpl; try reflexivity.
  destruct (step c g) as [[r g']|]; [apply IH | reflexivity].
Qed.

Lemma for_each_app {X} (f : X -> GenM unit) (xs ys : list X) :
  GenM_eq (for_each f (xs ++ ys)) (for_each f xs;; for_each f ys).
Proof.
  induction xs as [|x xs IH].
  - reflexivity.
  - change (GenM_eq (f x;; for_each f (xs ++ ys))
              ((f x;; for_each f xs);; for_each f ys)).
    etrans; [|symmetry; apply GenM_eq_bind_assoc].
    apply GenM_eq_bind; [reflexivity | intros _; exact IH].
Qed.

(** ** Descriptor and function emission *)

Section EmissionFacts.
Context `{Collaborators}.

Lemma emit_descriptors_from_worded
    (selectors : SelectorTable) (index : nat)
    (es : Map (CodegenItem Entity) EntityReachability) :
  GenM_eq (emit_descriptors_from selectors index es)
    (for_each (emit_entity selectors) (zip (seq index (length es)) es)).
Proof.
  revert index. induction es as [|[entity info] es IH]; intros index.
  - reflexivity.
  - change (GenM_eq
      (call (gen_define_relocatable (descriptor info) index);;
       emit_descriptor selectors entity info;;
       emit_descriptors_from selectors (S index) es)
      ((call (gen_define_relocatable (descriptor info) index);;
        emit_descriptor selectors entity info);;
       for_each (emit_entity selectors)
         (zip (seq (S index) (length es)) es))).
    etrans; [|symmetry; apply GenM_eq_bind_assoc].
    apply GenM_eq_bind; [reflexivity | intros _].
    apply GenM_eq_bind; [reflexivity | intros _]. apply IH.
Qed.

(** Where a completed run of the descriptor loop has registered the
    descriptors. *)
Lemma emit_descriptors_from_bound
    (selectors : SelectorTable)
    (es : Map (CodegenItem Entity) EntityReachability)
    (index : nat) (g g' : Generator) :
  run (emit_descriptors_from selectors index es) g = Some (tt, g') ->
  forall k entity info,
    es !! k = Some (entity, info) ->
    bound g !! descriptor info = None
    /\ bound g' !! descriptor info = Some (index + k).
Proof.
  revert index g. induction es as [|[entity0 info0] es IH]; intros index g Hrun.
  - intros k entity info Hk. by rewrite lookup_nil in Hk.
  - cbn [emit_descriptors_from] in Hrun.
    apply run_bind_Some in Hrun as ([] & g1 & Hdefine & Hrun).
    apply run_bind_Some in Hrun as ([] & g2 & Hrecord & Hrest).
    simpl in Hdefine.
    destruct (define_slot (descriptor info0) index g) as [g1'|] eqn:Hslot;
      simpl in Hdefine; [|discriminate].
    simplify_eq.
    apply define_slot_Some in Hslot as (Hfree & Hbound1 & _ & _).
    pose proof (run_grows _ _ _ _ Hrecord) as [_ Hsub12 _].
    pose proof (run_grows _ _ _ _ Hrest) as [_ Hsub2 _].
    intros [|k] entity info Hk; simpl in Hk; simplify_eq.
    + split; [done|]. rewrite Nat.add_0_r.
      eapply lookup_weaken; [|exact Hsub2].
      eapply lookup_weaken; [|exact Hsub12].
      rewrite Hbound1. apply lookup_insert_eq.
    + destruct (IH _ _ Hrest k entity info Hk) as [Hfree2 Hbound].
      split.
      * eapply lookup_weaken_None; [exact Hfree2|].
        etrans; [|exact Hsub12]. rewrite Hbound1. by apply insert_subseteq.
      * by rewrite Nat.add_succ_r.
Qed.

(** C9: descriptor emission registers the descriptor of the entity at
    0-based position [k] of the graph's iteration order at index [k]: the
    loop is "for the k-th entity, register at k, then emit the record", and
    after a completed run the descriptor slot of the k-th entity, free
    before, holds [k]. *)
Theorem emit_descriptors_positional
    (reachability : Reachability) (selectors : SelectorTable) :
  GenM_eq (emit_descriptors reachability selectors)
    (emit_descriptors_worded reachability selectors)
  /\ (forall g g' k entity info,
        run (emit_descriptors reachability selectors) g = Some (tt, g') ->
        entities reachability !! k = Some (entity, info) ->
        bound g !! descriptor info = None
        /\ bound g' !! descriptor info = Some k).
Proof.
  split.
  - apply emit_descriptors_from_worded.
  - intros g g' k entity info Hrun Hk.
    apply (emit_descriptors_from_bound _ _ _ _ _ Hrun k entity info Hk).
Qed.

Lemma has_body_true (entry : CodegenItem Method * MethodReachability) :
  has_body entry = true <-> body (definition (fst entry)) <> None.
Proof.
  unfold has_body. destruct (body (definition (fst entry))); split; congruence.
Qed.

Lemma emit_functions_methods_worded
    (context : Context) (analysis : AnalysisResults)
    (reachability : Reachability) (selectors : SelectorTable)
    (ms : Map (CodegenItem Method) MethodReachability) :
  GenM_eq
    (emit_functions_methods context analysis reachability selectors ms)
    (for_each (emit_method context analysis reachability selectors)
       (filter (fun entry => has_body entry = true) ms)).
Proof.
  induction ms as [|[method method_info] ms IH].
  - reflexivity.
  - cbn [emit_functions_methods].
    destruct (body (definition method)) as [b|] eqn:Hbody.
    + rewrite filter_cons_True by (unfold has_body; simpl; by rewrite Hbody).
      cbn [for_each]. unfold emit_method. cbn [fst snd].
      etrans; [|symmetry; apply GenM_eq_bind_assoc].
      apply GenM_eq_bind; [reflexivity | intros l].
      etrans; [|symmetry; apply GenM_eq_bind_assoc].
      apply GenM_eq_bind; [reflexivity | intros _].
      etrans; [|symmetry; apply GenM_eq_bind_assoc].
      apply GenM_eq_bind; [reflexivity | intros fn_analysis].
      apply GenM_eq_bind; [reflexivity | intros _]. exact IH.
    + rewrite filter_cons_False
        by (unfold has_body; simpl; by rewrite Hbody).
      exact IH.
Qed.

Lemma emit_functions_entities_worded
    (context : Context) (analysis : AnalysisResults)
    (reachability : Reachability) (selectors : SelectorTable)
    (es : Map (CodegenItem Entity) EntityReachability) :
  GenM_eq
    (emit_functions_entities context analysis reachability selectors es)
    (for_each (emit_method context analysis reachability selectors)
       (filter (fun entry => has_body entry = true)
          (flat_map (fun entry => methods (snd entry)) es))).
Proof.
  induction es as [|[entity entity_info] es IH].
  - reflexivity.
  - cbn [emit_functions_entities flat_map snd]. rewrite filter_app.
    etrans; [|symmetry; apply for_each_app].
    apply GenM_eq_bind; [apply emit_functions_methods_worded | intros _].
    exact IH.
Qed.

(** Where a completed run over methods has bound their labels. *)
Lemma for_each_emit_method_bound
    (context : Context) (analysis : AnalysisResults)
    (reachability : Reachability) (selectors : SelectorTable)
    (xs : list (CodegenItem Method * MethodReachability))
    (g g' : Generator) :
  run (for_each (emit_method context analysis reachability selectors) xs) g
  = Some (tt, g') ->
  forall entry, entry ∈ xs ->
    exists l offset,
      label (snd entry) = Some l
      /\ bound g !! l = None
      /\ bound g' !! l = Some offset
      /\ length (code g) <= offset <= length (code g').
Proof.
  revert g. induction xs as [|x xs IH]; intros g Hrun entry Hin.
  - by apply elem_of_nil in Hin.
  - cbn [for_each] in Hrun.
    apply run_bind_Some in Hrun as ([] & g2 & Hone & Hrest).
    unfold emit_method in Hone.
    apply run_bind_Some in Hone as (l & g1 & Hlabel & Hone).
    apply run_value_Some in Hlabel as [Hlabel ->].
    apply run_bind_Some in Hone as ([] & g1 & Hdefine & Hbody).
    simpl in Hdefine.
    destruct (define_slot l (length (code g)) g) as [g1'|] eqn:Hslot;
      simpl in Hdefine; [|discriminate].
    simplify_eq.
    apply define_slot_Some in Hslot as (Hfree & Hbound1 & Hcode1 & _).
    pose proof (run_grows _ _ _ _ Hbody) as Hgrow12.
    pose proof (run_grows _ _ _ _ Hrest) as Hgrow2.
    pose proof (grows_length _ _ Hgrow12) as Hlen12.
    pose proof (grows_length _ _ Hgrow2) as Hlen2.
    rewrite Hcode1 in Hlen12.
    destruct Hgrow12 as [_ Hsub12 _]. pose proof Hgrow2 as [_ Hsub2 _].
    apply elem_of_cons in Hin as [->|Hin].
    + exists l, (length (code g)). split_and!; [done | done | | lia | lia].
      eapply lookup_weaken; [|exact Hsub2].
      eapply lookup_weaken; [|exact Hsub12].
      rewrite Hbound1. apply lookup_insert_eq.
    + destruct (IH _ Hrest entry Hin) as (l' & offset & Hl & Hfree2 & Hb & Ho).
      exists l', offset. split_and!; [done | | done | lia | lia].
      eapply lookup_weaken_None; [exact Hfree2|].
      etrans; [|exact Hsub12]. rewrite Hbound1. by apply insert_subseteq.
Qed.

(** After a completed run of [emit_functions], the label of every reachable
    method with a body, free before, is bound inside what the run
    appended. *)
Lemma emit_functions_bound
    (context : Context) (analysis : AnalysisResults)
    (reachability : Reachability) (selectors : SelectorTable)
    (g g' : Generator) (entry : CodegenItem Method * MethodReachability) :
  run (emit_functions context analysis reachability selectors) g
  = Some (tt, g') ->
  entry ∈ reachable_methods reachability ->
  body (definition (fst entry)) <> None ->
  exists l offset,
    label (snd entry) = Some l
    /\ bound g !! l = None
    /\ bound g' !! l = Some offset
    /\ length (code g) <= offset <= length (code g').
Proof.
  intros Hrun Hin Hbody. unfold emit_functions in Hrun.
  rewrite (GenM_eq_run _ _ g
    (emit_functions_entities_worded context analysis reachability selectors
       (entities reachability))) in Hrun.
  eapply for_each_emit_method_bound; [exact Hrun|].
  apply list_elem_of_filter. split; [by apply has_body_true | done].
Qed.

Lemma Map_find_elem_of {K V} `{EqDecision K} (m : Map K V) (k : K) (v : V) :
  Map_find m k = Some v -> (k, v) ∈ m.
Proof.
  induction m as [|[k' v'] m IH]; simpl; [discriminate|].
  destruct (decide (k' = k)) as [->|Hne].
  - intros Hv. simplify_eq. by left.
  - intros Hv. right. by apply IH.
Qed.

Lemma reachable_methods_elem_of
    (reachability : Reachability)
    (c : CodegenItem Entity) (class_info : EntityReachability)
    (m : CodegenItem Method) (method_info : MethodReachability) :
  Map_find (entities reachability) c = Some class_info ->
  Map_find (methods class_info) m = Some method_info ->
  (m, method_info) ∈ reachable_methods reachability.
Proof.
  intros Hclass%Map_find_elem_of Hmethod%Map_find_elem_of.
  unfold reachable_methods. apply list_elem_of_In, in_flat_map.
  exists (c, class_info). split; by apply list_elem_of_In.
Qed.

(** C8: function emission is "for each reachable method that has a body, in
    the graph's iteration order: bind its code label, then emit its body";
    a method without a body is not among those and contributes no call on the
    generator, and after a completed run the label of every reachable method
    with a body, free before, is bound to an offset inside what the run
    appended. *)
Theorem emit_functions_skips_bodiless
    (context : Context) (analysis : AnalysisResults)
    (reachability : Reachability) (selectors : SelectorTable) :
  GenM_eq (emit_functions context analysis reachability selectors)
    (emit_functions_worded context analysis reachability selectors)
  /\ emitted_methods reachability `sublist_of` reachable_methods reachability
  /\ (forall entry,
        entry ∈ emitted_methods reachability
        <-> entry ∈ reachable_methods reachability
            /\ body (definition (fst entry)) <> None)
  /\ (NoDup (reachable_methods reachability) ->
      NoDup (emitted_methods reachability))
  /\ (forall g g' entry,
        run (emit_functions context analysis reachability selectors) g
        = Some (tt, g') ->
        entry ∈ reachable_methods reachability ->
        body (definition (fst entry)) <> None ->
        exists l offset,
          label (snd entry) = Some l
          /\ bound g !! l = None
          /\ bound g' !! l = Some offset
          /\ length (code g) <= offset <= length (code g')).
Proof.
  assert (forall entry,
    entry ∈ emitted_methods reachability
    <-> entry ∈ reachable_methods reachability
        /\ body (definition (fst entry)) <> None) as Hemitted.
  { intros entry. unfold emitted_methods.
    rewrite list_elem_of_filter, has_body_true. tauto. }
  split_and!.
  - apply emit_functions_entities_worded.
  - apply sublist_filter.
  - exact Hemitted.
  - apply NoDup_filter.
  - apply emit_functions_bound.
Qed.

End EmissionFacts.

(** ** The header of the image *)

Section HeaderFacts.
Context `{Collaborators}.


End HeaderFacts.

(** ** The properties on the sample program *)

Section SampleFacts.
#[local] Existing Instance Sample.extern_types.
#[local] Existing Instance Sample.collaborators.

Lemma label_methods_quiet (ms : list Method) (g g' : Generator)
    (r : Map (CodegenItem Method) MethodReachability) :
  run (Sample.label_methods ms) g = Some (r, g') ->
  code g' = code g /\ relocations g' = relocations g.
Proof.
  revert g g' r. induction ms as [|m ms IH]; intros g g' r Hrun.
  - simpl in Hrun. by simplify_eq.
  - cbn [Sample.label_methods] in Hrun.
    apply run_bind_Some in Hrun as (info & g1 & Hinfo & Hrun).
    apply run_bind_Some in Hrun as (rest & g2 & Hrest & Hrun).
    apply IH in Hrest as [Hcode Hrel]. simpl in Hrun. simplify_eq.
    rewrite Hcode, Hrel.
    destruct (body m); simpl in Hinfo; by simplify_eq.
Qed.

Lemma sample_reachability_emits_nothing : reachability_emits_nothing.
Proof.
  intros context c m analysis g reachability g' Hrun.
  change (run (Sample.reach context c m analysis) g
          = Some (reachability, g')) in Hrun.
  unfold Sample.reach in Hrun.
  apply run_bind_Some in Hrun as (d & g1 & Hd & Hrun).
  apply run_bind_Some in Hrun as (ms & g2 & Hms & Hrun).
  apply label_methods_quiet in Hms as [Hcode Hrel].
  simpl in Hd, Hrun. simplify_eq. by rewrite Hcode, Hrel.
Qed.

Lemma sample_truncate_narrows : truncate_narrows.
Proof.
  intros n v. unfold truncate_uint16, Sample.collaborators.
  unfold Sample.checked_uint16.
  destruct (Z.of_nat n <? 65536)%Z eqn:Hfit; [|discriminate].
  intros Hv. simplify_eq. apply Z.ltb_lt in Hfit.
  symmetry. apply Z.mod_small. lia.
Qed.

Lemma codegen_no_main_class_witness :
  Forall (fun e => text (name e) <> "Main")
    (program_entities Sample.program_without_main)
  /\ codegen Sample.context Sample.program_without_main Sample.analysis
     = ([print_global_diagnostic Error NoMainClass], Returned []).
Proof.
  assert (Forall (fun e => text (name e) <> "Main")
            (program_entities Sample.program_without_main)) as Hnone.
  { repeat constructor; simpl; discriminate. }
  split; [exact Hnone|].
  exact (proj1 (codegen_no_main_class Sample.context
                  Sample.program_without_main Sample.analysis Hnone)).
Defined.

Lemma codegen_main_not_a_class_witness :
  codegen Sample.context Sample.program_interface Sample.analysis
  = ([print_diagnostic 1 Error MainNotAClass;
      print_line_diagnostic {| first := 1; second := 5 |}], Returned []).
Proof.
  exact (proj1 (codegen_main_not_a_class Sample.context
                  Sample.program_interface Sample.analysis
                  (Sample.entity Interface "Main" []
                     [Sample.main_with_argument])
                  eq_refl ltac:(discriminate))).
Defined.

Lemma codegen_main_class_generic_witness :
  codegen Sample.context Sample.program_generic Sample.analysis
  = ([print_diagnostic 1 Error MainClassIsGeneric;
      print_line_diagnostic {| first := 1; second := 5 |}], Returned []).
Proof.
  exact (proj1 (codegen_main_class_generic Sample.context
                  Sample.program_generic Sample.analysis
                  (Sample.entity Class "Main" ["T"]
                     [Sample.main_with_argument])
                  eq_refl eq_refl ltac:(discriminate))).
Defined.

Lemma find_entry_success_witness :
  find_entry Sample.context Sample.program
  = ([], Some (mkCodegenItem Sample.main_class Instantiation_empty,
               mkCodegenItem Sample.main_method Instantiation_empty)).
Proof.
  exact (find_entry_success Sample.context Sample.program
           Sample.main_class Sample.main_method
           eq_refl eq_refl eq_refl eq_refl eq_refl).
Defined.

Lemma find_entry_main_signature_witness :
  find_entry Sample.context Sample.program_bad_signature
  = ([print_diagnostic 2 Error InvalidMainSignature;
      print_line_diagnostic {| first := 2; second := 6 |}], None)
  /\ find_entry Sample.context Sample.program_no_main_method
     = ([print_diagnostic 1 Error NoMainMethod;
         print_line_diagnostic {| first := 1; second := 5 |}], None).
Proof.
  split.
  - refine (proj2 (proj1 (find_entry_main_signature Sample.context
                            Sample.program_bad_signature
                            (Sample.entity Class "Main" []
                               [Sample.main_with_argument])
                            eq_refl eq_refl eq_refl)
                     Sample.main_with_argument eq_refl) _).
    intros (_ & _ & Hargs & _). discriminate Hargs.
  - refine (proj2 (find_entry_main_signature Sample.context
                     Sample.program_no_main_method
                     (Sample.entity Class "Main" [] [Sample.helper_method])
                     eq_refl eq_refl eq_refl) _).
    repeat constructor; simpl; discriminate.
Defined.

(** What C3 says without the amendment fails: an interface "Main" whose
    "main" takes an argument is rejected with "main not a class", a generic
    class "Main" with such a "main" and a generic class "Main" without a
    "main" are rejected with "main class is generic". *)
Lemma find_entry_main_signature_counterexample :
  let interface_main :=
    Sample.entity Interface "Main" [] [Sample.main_with_argument] in
  let generic_main :=
    Sample.entity Class "Main" ["T"] [Sample.main_with_argument] in
  let generic_empty := Sample.entity Class "Main" ["T"] [Sample.helper_method] in
  (find_entity Sample.program_interface "Main" = Some interface_main
   /\ lookup_member interface_main "main" = Some Sample.main_with_argument
   /\ ~ valid_main_signature Sample.context
          (signature Sample.main_with_argument)
   /\ diagnostics (fst (find_entry Sample.context Sample.program_interface))
      = [MainNotAClass]
   /\ diagnostics (fst (find_entry Sample.context Sample.program_interface))
      <> [InvalidMainSignature])
  /\ (find_entity Sample.program_generic "Main" = Some generic_main
      /\ kind generic_main = Class
      /\ lookup_member generic_main "main" = Some Sample.main_with_argument
      /\ diagnostics (fst (find_entry Sample.context Sample.program_generic))
         = [MainClassIsGeneric]
      /\ diagnostics (fst (find_entry Sample.context Sample.program_generic))
         <> [InvalidMainSignature])
  /\ (find_entity Sample.program_generic_no_main "Main" = Some generic_empty
      /\ kind generic_empty = Class
      /\ lookup_member generic_empty "main" = None
      /\ diagnostics
           (fst (find_entry Sample.context Sample.program_generic_no_main))
         = [MainClassIsGeneric]
      /\ diagnostics
           (fst (find_entry Sample.context Sample.program_generic_no_main))
         <> [NoMainMethod]).
Proof.
  cbv zeta. split_and!; try reflexivity; try discriminate.
  intros (_ & _ & Hargs & _). discriminate Hargs.
Qed.

Lemma header_count_narrowed_witness :
  run (emit_program_header Sample.reachability
         (mkCodegenItem Sample.main_class Instantiation_empty)
         (mkCodegenItem Sample.main_method Instantiation_empty))
    Sample.generator = Some (tt, Sample.generator_with_header)
  /\ exists v,
       Sample.checked_uint16 1 = Some v
       /\ drop 4 (code Sample.generator_with_header) = encode_le 2 v
       /\ decode_le (drop 4 (code Sample.generator_with_header))
          = (v mod 65536)%Z
       /\ ((65535 < 1)%Z ->
           decode_le (drop 4 (code Sample.generator_with_header)) <> 1%Z)
       /\ (decode_le (drop 4 (code Sample.generator_with_header)) = 1%Z ->
           (1 <= 65535)%Z).
Proof.
  split; [reflexivity|].
  exact (header_count_narrowed Sample.reachability
           (mkCodegenItem Sample.main_class Instantiation_empty)
           (mkCodegenItem Sample.main_method Instantiation_empty)
           Sample.generator Sample.generator_with_header eq_refl).
Defined.


Lemma codegen_empty_iff_no_entry_witness :
  snd (codegen Sample.context Sample.program_without_main Sample.analysis)
  = Returned []
  /\ snd (codegen Sample.context Sample.program Sample.analysis)
     = Returned Sample.image
  /\ 6 <= length Sample.image.
Proof.
  split_and!.
  - apply (proj1 (codegen_empty_iff_no_entry Sample.context
                    Sample.program_without_main Sample.analysis)).
    reflexivity.
  - reflexivity.
  - destruct (proj2 (codegen_empty_iff_no_entry Sample.context
                       Sample.program Sample.analysis)
                (mkCodegenItem Sample.main_class Instantiation_empty,
                 mkCodegenItem Sample.main_method Instantiation_empty)
                Sample.image ltac:(reflexivity) ltac:(reflexivity))
      as (gen & _ & _ & _ & Hlen).
    exact Hlen.
Defined.

Lemma emit_descriptors_positional_witness :
  exists g',
    run (emit_descriptors Sample.reachability 1) Sample.generator_with_header
    = Some (tt, g')
    /\ bound g' !! 0 = Some 0.
Proof.
  destruct (run (emit_descriptors Sample.reachability 1)
              Sample.generator_with_header) as [[[] g']|] eqn:Hrun.
  - exists g'. split; [reflexivity|].
    exact (proj2 (proj2 (emit_descriptors_positional Sample.reachability 1)
                    Sample.generator_with_header g' 0 _ _ Hrun eq_refl)).
  - vm_compute in Hrun. discriminate Hrun.
Defined.

Lemma emit_functions_skips_bodiless_witness :
  emitted_methods Sample.reachability
  = [(mkCodegenItem Sample.main_method Instantiation_empty,
      {| label := Some 1 |})]
  /\ exists g' offset,
       run (emit_functions Sample.context Sample.analysis
              Sample.reachability 1) Sample.generator_with_header
       = Some (tt, g')
       /\ bound g' !! 1 = Some offset
       /\ 6 <= offset <= length (code g').
Proof.
  split; [reflexivity|].
  destruct (run (emit_functions Sample.context Sample.analysis
                   Sample.reachability 1) Sample.generator_with_header)
    as [[[] g']|] eqn:Hrun.
  - destruct (proj2 (proj2 (proj2 (proj2
                (emit_functions_skips_bodiless Sample.context Sample.analysis
                   Sample.reachability 1))))
                Sample.generator_with_header g'
                (mkCodegenItem Sample.main_method Instantiation_empty,
                 {| label := Some 1 |})
                Hrun ltac:(by left) ltac:(discriminate))
      as (l & offset & Hl & _ & Hbound & Hoffset).
    injection Hl as <-. by exists g', offset.
  - vm_compute in Hrun. discriminate Hrun.
Defined.

End SampleFacts.

(** * Further properties *)

(** ** What entry-point resolution writes and returns *)

Section EntryPointShape.
Context `{Collaborators}.

(** The ways [find_entry] ends: an entry and nothing written, the global
    "no main class", or one located diagnostic followed by the echo of the
    range it is anchored in. *)
Lemma find_entry_cases (context : Context) (program : Program) :
  (exists entry, find_entry context program = ([], Some entry))
  \/ find_entry context program
     = ([print_global_diagnostic Error NoMainClass], None)
  \/ (exists r d,
        find_entry context program
        = ([print_diagnostic (first r) Error d; print_line_diagnostic r],
           None)).
Proof.
  unfold find_entry.
  destruct (find_entity program "Main") as [main|]; [|by right; left].
  destruct (negb (bool_decide (kind main = Class)));
    [right; right; by eexists _, _|].
  destruct (negb (is_empty (types (generics main))));
    [right; right; by eexists _, _|].
  destruct (lookup_member main "main") as [m|];
    [|right; right; by eexists _, _].
  destruct (negb (is_valid_main_signature context (signature m)));
    [right; right; by eexists _, _|].
  left. by eexists.
Qed.

(** X1: [find_entry] writes nothing when it returns an entry, and when it
    returns none it has written exactly one diagnostic: the global one, or a
    located one at the start of a source range followed by the echo of that
    same range. *)
Theorem find_entry_reports_once (context : Context) (program : Program) :
  (forall entry,
     snd (find_entry context program) = Some entry ->
     fst (find_entry context program) = [])
  /\ (snd (find_entry context program) = None ->
      exists d,
        diagnostics (fst (find_entry context program)) = [d]
        /\ (fst (find_entry context program)
            = [print_global_diagnostic Error d]
            \/ exists r,
                 fst (find_entry context program)
                 = [print_diagnostic (first r) Error d;
                    print_line_diagnostic r])).
Proof.
  destruct (find_entry_cases context program)
    as [[entry ->]|[->|(r & d & ->)]]; simpl.
  - split; [done | discriminate].
  - split; [discriminate|]. intros _. exists NoMainClass. split; [done|].
    by left.
  - split; [discriminate|]. intros _. exists d. split; [done|].
    right. by exists r.
Qed.

(** X2: an entry returned by [find_entry] is the entity found under "Main",
    which is a class without generic parameters, and the member found under
    "main", whose signature is valid, both with the empty instantiation. *)
Theorem find_entry_sound (context : Context) (program : Program)
    (c : CodegenItem Entity) (m : CodegenItem Method) :
  snd (find_entry context program) = Some (c, m) ->
  exists main_class main_method,
    find_entity program "Main" = Some main_class
    /\ kind main_class = Class
    /\ types (generics main_class) = []
    /\ lookup_member main_class "main" = Some main_method
    /\ valid_main_signature context (signature main_method)
    /\ c = mkCodegenItem main_class Instantiation_empty
    /\ m = mkCodegenItem main_method Instantiation_empty.
Proof.
  unfold find_entry.
  destruct (find_entity program "Main") as [main|] eqn:Hfind;
    [|discriminate].
  case_bool_decide as Hkind; simpl; [|discriminate].
  destruct (types (generics main)) as [|t ts] eqn:Hgen; simpl;
    [|discriminate].
  destruct (lookup_member main "main") as [mm|] eqn:Hlookup;
    [|discriminate].
  destruct (is_valid_main_signature context (signature mm)) eqn:Hvalid;
    simpl; [|discriminate].
  intros Hentry. simplify_eq.
  exists main, mm. split_and!; try done.
  by apply is_valid_main_signature_spec.
Qed.

Lemma codegen_log
    (context : Context) (program : Program) (analysis : AnalysisResults) :
  fst (codegen context program analysis) = fst (find_entry context program).
Proof.
  unfold codegen. destruct (find_entry context program) as [log [entry|]];
    [|reflexivity].
  destruct (run (emit_program context analysis entry) Generator_new)
    as [[[] gen]|]; [|reflexivity].
  by destruct (finish gen).
Qed.

Lemma codegen_entry_not_empty
    (context : Context) (program : Program) (analysis : AnalysisResults)
    (entry : CodegenItem Entity * CodegenItem Method) :
  snd (find_entry context program) = Some entry ->
  snd (codegen context program analysis) <> Returned [].
Proof.
  intros Hentry Hempty.
  destruct (codegen_entry_Returned _ _ _ _ _ Hentry Hempty)
    as (gen & Hrun & Hfinish).
  apply emit_program_length in Hrun.
  apply apply_relocations_length in Hfinish. simpl in Hfinish. lia.
Qed.

(** X3: [codegen] returns the empty byte sequence exactly when one
    diagnostic has been written, and whenever it ends otherwise (an image or
    no return at all) entry-point resolution has written nothing. *)
Theorem codegen_reports_iff_empty
    (context : Context) (program : Program) (analysis : AnalysisResults) :
  (snd (codegen context program analysis) = Returned []
   <-> exists d, diagnostics (fst (codegen context program analysis)) = [d])
  /\ (snd (codegen context program analysis) <> Returned []
      <-> fst (codegen context program analysis) = []).
Proof.
  rewrite codegen_log.
  destruct (snd (find_entry context program)) as [entry|] eqn:Hentry.
  - pose proof (codegen_entry_not_empty _ _ analysis _ Hentry) as Hne.
    destruct (find_entry_cases context program)
      as [[e Hcase]|[Hcase|(r & d & Hcase)]];
      rewrite Hcase in Hentry |- *; simpl in *; try discriminate.
    split; split; try done. intros [d Hd]. discriminate Hd.
  - pose proof (codegen_no_entry _ _ analysis Hentry) as Hout.
    rewrite Hout. simpl.
    destruct (find_entry_cases context program)
      as [[e Hcase]|[Hcase|(r & d & Hcase)]];
      rewrite Hcase in Hentry |- *; simpl in *; try discriminate.
    + split; split; try done. by exists NoMainClass.
    + split; split; try done. by exists d.
Qed.

End EntryPointShape.

(** ** When the header can be emitted *)

Section HeaderMore.
Context `{Collaborators}.

(** X4: when [emit_program_header] completes, the entry class was in the
    graph, the entry method was among its methods and carried a label, and
    [truncate<uint16_t>] returned; the generator is the one it started from
    with six bytes appended (a 32-bit placeholder, then the count) and one
    32-bit relocation to that label at the old end of the buffer: no slot
    bound, no label allocated, nothing overwritten. *)
Theorem emit_program_header_effect
    (reachability : Reachability)
    (main_class : CodegenItem Entity) (main_method : CodegenItem Method)
    (g g' : Generator) :
  run (emit_program_header reachability main_class main_method) g
  = Some (tt, g') ->
  exists class_info method_info l v,
    Map_find (entities reachability) main_class = Some class_info
    /\ Map_find (methods class_info) main_method = Some method_info
    /\ label method_info = Some l
    /\ truncate_uint16 (length (entities reachability)) = Some v
    /\ g' = {| code := (code g ++ replicate 4 0%Z) ++ encode_le 2 v;
               next_label := next_label g;
               bound := bound g;
               relocations :=
                 relocations g
                 ++ [{| position := length (code g); target := l;
                        width := W32 |}] |}.
Proof.
  unfold emit_program_header, Map_at. intros Hrun.
  apply run_bind_Some in Hrun as (class_info & g1 & Hclass & Hrun).
  apply run_value_Some in Hclass as [Hclass ->].
  apply run_bind_Some in Hrun as (method_info & g1 & Hmethod & Hrun).
  apply run_value_Some in Hmethod as [Hmethod ->].
  apply run_bind_Some in Hrun as (l & g1 & Hlabel & Hrun).
  apply run_value_Some in Hlabel as [Hlabel ->].
  apply run_bind_Some in Hrun as ([] & g1 & Href & Hrun).
  apply run_bind_Some in Hrun as (v & g2 & Hcount & Hrun).
  apply run_value_Some in Hcount as [Hcount ->].
  simpl in Href, Hrun. simplify_eq.
  by exists class_info, method_info, l, v.
Qed.

(** X5: when the graph handed back by the reachability analysis has no
    labelled entry for the entry method (the class is missing, the method is
    missing, or its label is absent), [codegen] does not return: nothing
    catches what [at] and [value] throw. *)
Theorem codegen_aborts_without_entry_label
    (context : Context) (program : Program) (analysis : AnalysisResults)
    (entry : CodegenItem Entity * CodegenItem Method)
    (reachability : Reachability) (g0 : Generator) :
  snd (find_entry context program) = Some entry ->
  run (compute_reachability context (fst entry) (snd entry) analysis)
    Generator_new = Some (reachability, g0) ->
  (forall class_info method_info,
     Map_find (entities reachability) (fst entry) = Some class_info ->
     Map_find (methods class_info) (snd entry) = Some method_info ->
     label method_info = None) ->
  snd (codegen context program analysis) = Aborted.
Proof.
  intros Hentry Hreach Hnone.
  rewrite (codegen_entry _ _ _ entry Hentry).
  destruct (run (emit_program context analysis entry) Generator_new)
    as [[[] gen]|] eqn:Hrun; [|reflexivity].
  apply emit_program_run in Hrun
    as (reachability' & g0' & g1 & Hreach' & Hheader & _).
  rewrite Hreach in Hreach'. simplify_eq.
  apply emit_program_header_run in Hheader
    as (class_info & method_info & l & v & Hclass & Hmethod & Hlabel & _).
  rewrite (Hnone _ _ Hclass Hmethod) in Hlabel. discriminate Hlabel.
Qed.

End HeaderMore.

(** ** More on descriptor and function emission *)

Section EmissionMore.
Context `{Collaborators}.

(** X6: descriptor emission completes only on a graph whose descriptor
    slots are pairwise distinct and were all unbound when it started;
    registering a slot a second time is fatal. *)
Theorem emit_descriptors_slots_distinct
    (reachability : Reachability) (selectors : SelectorTable)
    (g g' : Generator) :
  run (emit_descriptors reachability selectors) g = Some (tt, g') ->
  NoDup (map (fun entry => descriptor (snd entry)) (entities reachability))
  /\ Forall (fun entry => bound g !! descriptor (snd entry) = None)
       (entities reachability).
Proof.
  intros Hrun.
  pose proof (emit_descriptors_from_bound _ _ _ _ _ Hrun) as Hbound.
  split.
  - apply NoDup_alt. intros i j d Hi Hj.
    apply list_lookup_fmap_Some in Hi as ([ei infoi] & -> & Hi).
    apply list_lookup_fmap_Some in Hj as ([ej infoj] & Hd & Hj).
    simpl in Hd.
    destruct (Hbound _ _ _ Hi) as [_ Hki].
    destruct (Hbound _ _ _ Hj) as [_ Hkj].
    simpl in Hki. rewrite Hd in Hki. rewrite Hki in Hkj. by simplify_eq.
  - apply Forall_lookup. intros k [entity info] Hk.
    by destruct (Hbound _ _ _ Hk).
Qed.

(** X7: the descriptor loop over a graph in two parts is the loop over the
    first part followed by the loop over the second, which goes on counting
    where the first stopped. *)
Theorem emit_descriptors_from_app
    (selectors : SelectorTable) (index : nat)
    (es1 es2 : Map (CodegenItem Entity) EntityReachability) :
  GenM_eq (emit_descriptors_from selectors index (es1 ++ es2))
    (emit_descriptors_from selectors index es1;;
     emit_descriptors_from selectors (index + length es1) es2).
Proof.
  revert index. induction es1 as [|[entity info] es1 IH]; intros index.
  - simpl. rewrite Nat.add_0_r. reflexivity.
  - change (GenM_eq
      (call (gen_define_relocatable (descriptor info) index);;
       emit_descriptor selectors entity info;;
       emit_descriptors_from selectors (S index) (es1 ++ es2))
      ((call (gen_define_relocatable (descriptor info) index);;
        emit_descriptor selectors entity info;;
        emit_descriptors_from selectors (S index) es1);;
       emit_descriptors_from selectors (index + S (length es1)) es2)).
    etrans; [|symmetry; apply GenM_eq_bind_assoc].
    apply GenM_eq_bind; [reflexivity | intros _].
    etrans; [|symmetry; apply GenM_eq_bind_assoc].
    apply GenM_eq_bind; [reflexivity | intros _].
    rewrite Nat.add_succ_r. apply (IH (S index)).
Qed.

(** X8: on a graph in which no reachable method has a body, function
    emission makes no call on the generator and returns normally, whatever
    the labels and the analysis results are. *)
Theorem emit_functions_no_bodies
    (context : Context) (analysis : AnalysisResults)
    (reachability : Reachability) (selectors : SelectorTable) :
  Forall (fun entry => body (definition (fst entry)) = None)
    (reachable_methods reachability) ->
  GenM_eq (emit_functions context analysis reachability selectors) (Ret tt)
  /\ forall g,
       run (emit_functions context analysis reachability selectors) g
       = Some (tt, g).
Proof.
  intros Hnone.
  assert (GenM_eq (emit_functions context analysis reachability selectors)
            (Ret tt)) as Heq.
  { etrans; [apply emit_functions_entities_worded|].
    fold (reachable_methods reachability).
    replace (filter (fun entry => has_body entry = true)
               (reachable_methods reachability))
      with (@nil (CodegenItem Method * MethodReachability));
      [reflexivity|].
    symmetry. induction Hnone as [|entry entries Hentry _ IH]; [done|].
    rewrite filter_cons_False; [exact IH|].
    rewrite has_body_true. by intros []. }
  split; [exact Heq|]. intros g. by rewrite (GenM_eq_run _ _ g Heq).
Qed.

(** A completed run over methods has found the analysis of each. *)
Lemma for_each_emit_method_analysis
    (context : Context) (analysis : AnalysisResults)
    (reachability : Reachability) (selectors : SelectorTable)
    (xs : list (CodegenItem Method * MethodReachability))
    (g g' : Generator) :
  run (for_each (emit_method context analysis reachability selectors) xs) g
  = Some (tt, g') ->
  forall entry, entry ∈ xs ->
    is_Some (Map_find (functions analysis) (definition (fst entry))).
Proof.
  revert g. induction xs as [|x xs IH]; intros g Hrun entry Hin.
  - by apply elem_of_nil in Hin.
  - cbn [for_each] in Hrun.
    apply run_bind_Some in Hrun as ([] & g2 & Hone & Hrest).
    apply elem_of_cons in Hin as [->|Hin]; [|by eapply IH].
    unfold emit_method in Hone.
    apply run_bind_Some in Hone as (l & g1 & _ & Hone).
    apply run_bind_Some in Hone as ([] & g1' & _ & Hone).
    apply run_bind_Some in Hone as (fn_analysis & g1'' & Hat & _).
    unfold Map_at in Hat. apply run_value_Some in Hat as [Hat _].
    by exists fn_analysis.
Qed.

(** X9: function emission completes only if the analysis results hold an
    entry for every reachable method that has a body; [at] throws on a
    missing one.  Methods without a body need none. *)
Theorem emit_functions_needs_analysis
    (context : Context) (analysis : AnalysisResults)
    (reachability : Reachability) (selectors : SelectorTable)
    (g g' : Generator) (entry : CodegenItem Method * MethodReachability) :
  run (emit_functions context analysis reachability selectors) g
  = Some (tt, g') ->
  entry ∈ reachable_methods reachability ->
  body (definition (fst entry)) <> None ->
  is_Some (Map_find (functions analysis) (definition (fst entry))).
Proof.
  intros Hrun Hin Hbody. unfold emit_functions in Hrun.
  rewrite (GenM_eq_run _ _ g
    (emit_functions_entities_worded context analysis reachability selectors
       (entities reachability))) in Hrun.
  eapply for_each_emit_method_analysis; [exact Hrun|].
  apply list_elem_of_filter. split; [by apply has_body_true | done].
Qed.

(** In a completed run over methods, a method later in the list has another
    label, bound no earlier in the buffer. *)
Lemma for_each_emit_method_ordered
    (context : Context) (analysis : AnalysisResults)
    (reachability : Reachability) (selectors : SelectorTable)
    (xs : list (CodegenItem Method * MethodReachability))
    (g g' : Generator) :
  run (for_each (emit_method context analysis reachability selectors) xs) g
  = Some (tt, g') ->
  forall i j first_entry second_entry,
    i < j ->
    xs !! i = Some first_entry ->
    xs !! j = Some second_entry ->
    exists l1 l2 offset1 offset2,
      label (snd first_entry) = Some l1
      /\ label (snd second_entry) = Some l2
      /\ bound g' !! l1 = Some offset1
      /\ bound g' !! l2 = Some offset2
      /\ l1 <> l2
      /\ offset1 <= offset2.
Proof.
  revert g. induction xs as [|x xs IH]; intros g Hrun i j e1 e2 Hlt Hi Hj.
  - by rewrite lookup_nil in Hi.
  - destruct j as [|j]; [lia|]. simpl in Hj.
    cbn [for_each] in Hrun.
    apply run_bind_Some in Hrun as ([] & g2 & Hone & Hrest).
    destruct i as [|i]; simpl in Hi.
    + simplify_eq.
      destruct (for_each_emit_method_bound _ _ _ _ _ _ _ Hrest e2
                  (list_elem_of_lookup_2 _ _ _ Hj))
        as (l2 & offset2 & Hl2 & Hfree2 & Hbound2 & Hoffset2).
      unfold emit_method in Hone.
      apply run_bind_Some in Hone as (l & g1 & Hlabel & Hone).
      apply run_value_Some in Hlabel as [Hlabel ->].
      apply run_bind_Some in Hone as ([] & g1 & Hdefine & Hbody).
      simpl in Hdefine.
      destruct (define_slot l (length (code g)) g) as [g1'|] eqn:Hslot;
        simpl in Hdefine; [|discriminate].
      simplify_eq.
      apply define_slot_Some in Hslot as (_ & Hb1 & Hcode1 & _).
      pose proof (run_grows _ _ _ _ Hbody) as Hgrow12.
      pose proof (grows_length _ _ Hgrow12) as Hlen12.
      rewrite Hcode1 in Hlen12. destruct Hgrow12 as [_ Hsub12 _].
      assert (bound g2 !! l = Some (length (code g))) as Hlg2.
      { eapply lookup_weaken; [|exact Hsub12].
        rewrite Hb1. apply lookup_insert_eq. }
      pose proof (run_grows _ _ _ _ Hrest) as [_ Hsub2 _].
      pose proof (lookup_weaken _ _ _ _ Hlg2 Hsub2) as Hlg'.
      exists l, l2, (length (code g)), offset2. split_and!; try done.
      * intros ->. rewrite Hlg2 in Hfree2. discriminate Hfree2.
      * lia.
    + eapply (IH _ Hrest i j); [lia | done | done].
Qed.

(** X10: function emission lays the bodies out in the graph's iteration
    order: of two reachable methods with a body, the later one has a
    different label, bound at an offset that is not smaller. *)
Theorem emit_functions_layout_ordered
    (context : Context) (analysis : AnalysisResults)
    (reachability : Reachability) (selectors : SelectorTable)
    (g g' : Generator) (i j : nat)
    (first_entry second_entry : CodegenItem Method * MethodReachability) :
  run (emit_functions context analysis reachability selectors) g
  = Some (tt, g') ->
  i < j ->
  emitted_methods reachability !! i = Some first_entry ->
  emitted_methods reachability !! j = Some second_entry ->
  exists l1 l2 offset1 offset2,
    label (snd first_entry) = Some l1
    /\ label (snd second_entry) = Some l2
    /\ bound g' !! l1 = Some offset1
    /\ bound g' !! l2 = Some offset2
    /\ l1 <> l2
    /\ offset1 <= offset2.
Proof.
  intros Hrun Hlt Hi Hj. unfold emit_functions in Hrun.
  rewrite (GenM_eq_run _ _ g
    (emit_functions_entities_worded context analysis reachability selectors
       (entities reachability))) in Hrun.
  by eapply for_each_emit_method_ordered.
Qed.


(** X12: in a run of [codegen] that returns, what function emission does
    leaves the descriptor table as descriptor emission made it: at [finish]
    the descriptor slot of the entity at position [k] still holds [k]. *)
Theorem codegen_descriptor_indices
    (context : Context) (program : Program) (analysis : AnalysisResults)
    (entry : CodegenItem Entity * CodegenItem Method) (bytes : list Z) :
  snd (find_entry context program) = Some entry ->
  snd (codegen context program analysis) = Returned bytes ->
  exists reachability g0 gen,
    run (compute_reachability context (fst entry) (snd entry) analysis)
      Generator_new = Some (reachability, g0)
    /\ run (emit_program context analysis entry) Generator_new
       = Some (tt, gen)
    /\ finish gen = Some bytes
    /\ forall k entity info,
         entities reachability !! k = Some (entity, info) ->
         bound gen !! descriptor info = Some k.
Proof.
  intros Hentry Hout.
  destruct (codegen_entry_Returned _ _ _ _ _ Hentry Hout)
    as (gen & Hrun & Hfinish).
  destruct (emit_program_run _ _ _ _ Hrun)
    as (reachability & g0 & g1 & Hreach & Hheader & Hrest).
  exists reachability, g0, gen. split_and!; try done.
  intros k entity info Hk.
  apply run_bind_Some in Hrest as ([] & g2 & Hdescriptors & Hfunctions).
  destruct (emit_descriptors_from_bound _ _ _ _ _ Hdescriptors _ _ _ Hk)
    as [_ Hbound].
  pose proof (run_grows _ _ _ _ Hfunctions) as [_ Hsub _].
  by eapply lookup_weaken.
Qed.

End EmissionMore.

(** ** The further properties on the sample programs *)

Section SampleMore.
#[local] Existing Instance Sample.extern_types.
#[local] Existing Instance Sample.collaborators.

Lemma find_entry_sound_witness :
  exists main_class main_method,
    find_entity Sample.program "Main" = Some main_class
    /\ kind main_class = Class
    /\ types (generics main_class) = []
    /\ lookup_member main_class "main" = Some main_method
    /\ valid_main_signature Sample.context (signature main_method)
    /\ mkCodegenItem Sample.main_class Instantiation_empty
       = mkCodegenItem main_class Instantiation_empty
    /\ mkCodegenItem Sample.main_method Instantiation_empty
       = mkCodegenItem main_method Instantiation_empty.
Proof.
  exact (find_entry_sound Sample.context Sample.program
           (mkCodegenItem Sample.main_class Instantiation_empty)
           (mkCodegenItem Sample.main_method Instantiation_empty)
           ltac:(reflexivity)).
Defined.

Lemma sample_abstract_main_unlabelled
    (class_info : EntityReachability) (method_info : MethodReachability) :
  Map_find (entities Sample.reachability_abstract_main)
    (mkCodegenItem (Sample.entity Class "Main" [] [Sample.abstract_main])
       Instantiation_empty) = Some class_info ->
  Map_find (methods class_info)
    (mkCodegenItem Sample.abstract_main Instantiation_empty)
  = Some method_info ->
  label method_info = None.
Proof.
  intros Hclass. vm_compute in Hclass. injection Hclass as <-.
  intros Hmethod. vm_compute in Hmethod. by injection Hmethod as <-.
Qed.

Lemma codegen_aborts_without_entry_label_witness :
  snd (find_entry Sample.context Sample.program_abstract_main)
  = Some (mkCodegenItem (Sample.entity Class "Main" [] [Sample.abstract_main])
            Instantiation_empty,
          mkCodegenItem Sample.abstract_main Instantiation_empty)
  /\ snd (codegen Sample.context Sample.program_abstract_main Sample.analysis)
     = Aborted.
Proof.
  split; [reflexivity|].
  exact (codegen_aborts_without_entry_label Sample.context
           Sample.program_abstract_main Sample.analysis
           (mkCodegenItem
              (Sample.entity Class "Main" [] [Sample.abstract_main])
              Instantiation_empty,
            mkCodegenItem Sample.abstract_main Instantiation_empty)
           Sample.reachability_abstract_main Sample.generator_one_label
           ltac:(reflexivity) ltac:(reflexivity)
           sample_abstract_main_unlabelled).
Defined.

Lemma emit_descriptors_slots_distinct_witness :
  exists g',
    run (emit_descriptors Sample.reachability 1) Sample.generator_with_header
    = Some (tt, g')
    /\ NoDup (map (fun entry => descriptor (snd entry))
                (entities Sample.reachability))
    /\ Forall
         (fun entry : CodegenItem Entity * EntityReachability =>
            bound Sample.generator_with_header !! descriptor (snd entry)
            = None)
         (entities Sample.reachability).
Proof.
  destruct (run (emit_descriptors Sample.reachability 1)
              Sample.generator_with_header) as [[[] g']|] eqn:Hrun.
  - exists g'. split; [reflexivity|].
    exact (emit_descriptors_slots_distinct Sample.reachability 1
             Sample.generator_with_header g' Hrun).
  - vm_compute in Hrun. discriminate Hrun.
Defined.

Lemma emit_functions_no_bodies_witness :
  Forall
    (fun entry : CodegenItem Method * MethodReachability =>
       body (definition (fst entry)) = None)
    (reachable_methods Sample.reachability_bodiless)
  /\ forall g,
       run (emit_functions Sample.context Sample.analysis_empty
              Sample.reachability_bodiless 1) g = Some (tt, g).
Proof.
  assert (Forall
            (fun entry : CodegenItem Method * MethodReachability =>
               body (definition (fst entry)) = None)
            (reachable_methods Sample.reachability_bodiless)) as Hnone.
  { repeat constructor. }
  split; [exact Hnone|].
  exact (proj2 (emit_functions_no_bodies Sample.context Sample.analysis_empty
                  Sample.reachability_bodiless 1 Hnone)).
Defined.

Lemma emit_functions_needs_analysis_witness :
  exists g',
    run (emit_functions Sample.context Sample.analysis Sample.reachability 1)
      Sample.generator_with_header = Some (tt, g')
    /\ is_Some (Map_find (functions Sample.analysis) Sample.main_method).
Proof.
  destruct (run (emit_functions Sample.context Sample.analysis
                   Sample.reachability 1) Sample.generator_with_header)
    as [[[] g']|] eqn:Hrun.
  - exists g'. split; [reflexivity|].
    exact (emit_functions_needs_analysis Sample.context Sample.analysis
             Sample.reachability 1 Sample.generator_with_header g'
             (mkCodegenItem Sample.main_method Instantiation_empty,
              {| label := Some 1 |})
             Hrun ltac:(by left) ltac:(discriminate)).
  - vm_compute in Hrun. discriminate Hrun.
Defined.

Lemma emit_functions_layout_ordered_witness :
  exists g' offset1 offset2,
    run (emit_functions Sample.context Sample.analysis
           Sample.reachability_two_bodies 1) Sample.generator_with_header
    = Some (tt, g')
    /\ bound g' !! 1 = Some offset1
    /\ bound g' !! 2 = Some offset2
    /\ offset1 <= offset2.
Proof.
  destruct (run (emit_functions Sample.context Sample.analysis
                   Sample.reachability_two_bodies 1)
              Sample.generator_with_header) as [[[] g']|] eqn:Hrun.
  - destruct (emit_functions_layout_ordered Sample.context Sample.analysis
                Sample.reachability_two_bodies 1
                Sample.generator_with_header g' 0 1
                (mkCodegenItem Sample.main_method Instantiation_empty,
                 {| label := Some 1 |})
                (mkCodegenItem Sample.main_with_argument Instantiation_empty,
                 {| label := Some 2 |})
                Hrun ltac:(lia) ltac:(reflexivity) ltac:(reflexivity))
      as (l1 & l2 & offset1 & offset2 & Hl1 & Hl2 & Hb1 & Hb2 & _ & Hle).
    injection Hl1 as <-. injection Hl2 as <-.
    by exists g', offset1, offset2.
  - vm_compute in Hrun. discriminate Hrun.
Defined.


Lemma codegen_descriptor_indices_witness :
  snd (codegen Sample.context Sample.program Sample.analysis)
  = Returned Sample.image
  /\ exists reachability g0 gen,
       run (compute_reachability Sample.context
              (mkCodegenItem Sample.main_class Instantiation_empty)
              (mkCodegenItem Sample.main_method Instantiation_empty)
              Sample.analysis) Generator_new = Some (reachability, g0)
       /\ run (emit_program Sample.context Sample.analysis
                 (mkCodegenItem Sample.main_class Instantiation_empty,
                  mkCodegenItem Sample.main_method Instantiation_empty))
            Generator_new = Some (tt, gen)
       /\ finish gen = Some Sample.image
       /\ forall k entity info,
            entities reachability !! k = Some (entity, info) ->
            bound gen !! descriptor info = Some k.
Proof.
  split; [reflexivity|].
  exact (codegen_descriptor_indices Sample.context Sample.program
           Sample.analysis
           (mkCodegenItem Sample.main_class Instantiation_empty,
            mkCodegenItem Sample.main_method Instantiation_empty)
           Sample.image ltac:(reflexivity) ltac:(reflexivity)).
Defined.

Lemma emit_program_header_effect_witness :
  exists class_info method_info l v,
    Map_find (entities Sample.reachability)
      (mkCodegenItem Sample.main_class Instantiation_empty)
    = Some class_info
    /\ Map_find (methods class_info)
         (mkCodegenItem Sample.main_method Instantiation_empty)
       = Some method_info
    /\ label method_info = Some l
    /\ Sample.checked_uint16 (length (entities Sample.reachability)) = Some v
    /\ Sample.generator_with_header
       = {| code := (code Sample.generator ++ replicate 4 0%Z)
                    ++ encode_le 2 v;
            next_label := next_label Sample.generator;
            bound := bound Sample.generator;
            relocations :=
              relocations Sample.generator
              ++ [{| position := length (code Sample.generator);
                     target := l; width := W32 |}] |}.
Proof.
  exact (emit_program_header_effect Sample.reachability
           (mkCodegenItem Sample.main_class Instantiation_empty)
           (mkCodegenItem Sample.main_method Instantiation_empty)
           Sample.generator Sample.generator_with_header eq_refl).
Defined.

End SampleMore.

(** ** Graphs of many entities *)

Section SampleSized.
Variable n : nat.
#[local] Existing Instance Sample.extern_types.
#[local] Hint Extern 0 Collaborators =>
  exact (Sample.collaborators_sized n) : typeclass_instances.

Lemma sized_reachability_emits_nothing : reachability_emits_nothing.
Proof.
  intros context c m analysis g reachability g' Hrun.
  simpl in Hrun. by simplify_eq.
Qed.

Lemma sized_truncate_narrows : truncate_narrows.
Proof.
  intros k v Hv. simpl in Hv. unfold Sample.wrapping_uint16 in Hv.
  by simplify_eq.
Qed.

Lemma sized_no_methods (ks : list nat) :
  flat_map
    (fun entry : CodegenItem Entity * EntityReachability =>
       methods (snd entry))
    (map Sample.filler ks) = [].
Proof. induction ks as [|k ks IH]; [done | exact IH]. Qed.

(** The descriptor loop over the other entities binds their slots and
    leaves the rest of the generator alone. *)
Lemma sized_descriptors (selectors : SelectorTable) (k a index : nat)
    (g : Generator) :
  (forall j, a <= j -> bound g !! S j = None) ->
  exists g',
    run (emit_descriptors_from selectors index
           (map Sample.filler (seq a k))) g = Some (tt, g')
    /\ code g' = code g
    /\ relocations g' = relocations g
    /\ bound g' !! 0 = bound g !! 0.
Proof.
  revert a index g. induction k as [|k IH]; intros a index g Hfree.
  - exists g. by split_and!.
  - cbn [seq map emit_descriptors_from Sample.filler snd descriptor].
    rewrite run_bind. cbn [call run step]. unfold define_slot.
    rewrite (Hfree a) by lia. cbn [mbind option_bind].
    rewrite run_bind. cbn [emit_descriptor Sample.collaborators_sized run].
    destruct (IH (S a) (S index)
                {| code := code g; next_label := next_label g;
                   bound := <[S a := index]> (bound g);
                   relocations := relocations g |})
      as (g' & Hrun & Hcode & Hrel & Hzero).
    { intros j Hj. cbn [bound]. rewrite lookup_insert_ne by lia.
      apply Hfree. lia. }
    exists g'. split_and!; try done.
    rewrite Hzero. cbn [bound]. by rewrite lookup_insert_ne by lia.
Qed.

(** The generator after the whole pipeline on [Sample.program]: the
    header, no descriptor bytes, the body of [main] at offset 6. *)
Lemma sized_emit_program :
  exists gen,
    run (emit_program Sample.context Sample.analysis
           (mkCodegenItem Sample.main_class Instantiation_empty,
            mkCodegenItem Sample.main_method Instantiation_empty))
      Generator_new = Some (tt, gen)
    /\ code gen
       = replicate 4 0%Z
         ++ encode_le 2 (Z.of_nat (S n) mod 65536)%Z ++ [7; 0; 44; 1]%Z
    /\ relocations gen = [{| position := 0; target := 0; width := W32 |}]
    /\ bound gen !! 0 = Some 6.
Proof.
  unfold emit_program. rewrite run_bind.
  cbn [compute_reachability Sample.collaborators_sized run fst snd].
  set (reachability :=
         Sample.reachability_sized n
           (mkCodegenItem Sample.main_class Instantiation_empty)
           (mkCodegenItem Sample.main_method Instantiation_empty)).
  set (selectors := SelectorTable_build reachability).
  assert (length (entities reachability) = S n) as Hsize.
  { unfold reachability. cbn [entities Sample.reachability_sized length].
    by rewrite length_map, length_seq. }
  (* the header *)
  rewrite run_bind.
  assert (run (emit_program_header reachability
                 (mkCodegenItem Sample.main_class Instantiation_empty)
                 (mkCodegenItem Sample.main_method Instantiation_empty))
            Generator_new
          = Some (tt,
              {| code := replicate 4 0%Z
                         ++ encode_le 2 (Z.of_nat (S n) mod 65536)%Z;
                 next_label := 0; bound := ∅;
                 relocations :=
                   [{| position := 0; target := 0; width := W32 |}] |}))
    as ->.
  { rewrite <- Hsize. reflexivity. }
  (* the descriptors *)
  rewrite run_bind. unfold emit_descriptors.
  change (entities reachability)
    with ((mkCodegenItem Sample.main_class Instantiation_empty,
           {| descriptor := 1;
              methods :=
                [(mkCodegenItem Sample.main_method Instantiation_empty,
                  {| label := Some 0 |})] |})
          :: map Sample.filler (seq 1 n)) at 1.
  cbn [emit_descriptors_from descriptor].
  rewrite run_bind. cbn [call run step code]. unfold define_slot.
  cbn [bound code next_label relocations]. rewrite lookup_empty.
  cbn [mbind option_bind].
  rewrite run_bind. cbn [emit_descriptor Sample.collaborators_sized run].
  destruct (sized_descriptors selectors n 1 1
              {| code := replicate 4 0%Z
                         ++ encode_le 2 (Z.of_nat (S n) mod 65536)%Z;
                 next_label := 0; bound := <[1 := 0]> ∅;
                 relocations :=
                   [{| position := 0; target := 0; width := W32 |}] |})
    as ([code2 next2 bound2 relocations2] & -> & Hcode & Hrel & Hzero).
  { intros j Hj. cbn [bound]. rewrite lookup_insert_ne by lia.
    apply lookup_empty. }
  cbn [code relocations bound] in Hcode, Hrel, Hzero.
  rewrite lookup_insert_ne, lookup_empty in Hzero by lia. subst.
  (* the functions *)
  unfold emit_functions.
  rewrite (GenM_eq_run _ _ _
    (emit_functions_entities_worded Sample.context Sample.analysis
       reachability selectors (entities reachability))).
  change (entities reachability)
    with ((mkCodegenItem Sample.main_class Instantiation_empty,
           {| descriptor := 1;
              methods :=
                [(mkCodegenItem Sample.main_method Instantiation_empty,
                  {| label := Some 0 |})] |})
          :: map Sample.filler (seq 1 n)).
  cbn [flat_map snd methods app]. rewrite sized_no_methods.
  rewrite filter_cons_True by reflexivity. rewrite filter_nil.
  cbn [for_each]. rewrite run_bind. unfold emit_method.
  cbn [fst snd label value]. rewrite run_bind. cbn [run].
  rewrite run_bind. cbn [call run step code]. unfold define_slot.
  cbn [bound code next_label relocations]. rewrite Hzero.
  cbn [mbind option_bind].
  eexists. split; [reflexivity|]. cbn [code relocations bound].
  split_and!; [reflexivity | reflexivity |].
  cbn [append bound]. by rewrite lookup_insert_eq.
Qed.

(** [codegen] on [Sample.program] with the graph of [n + 1] entities
    returns an image whose count field holds [n + 1] modulo 65536. *)
Lemma sized_codegen :
  snd (codegen Sample.context Sample.program Sample.analysis)
  = Returned
      (encode_le 4 6
       ++ encode_le 2 (Z.of_nat (S n) mod 65536)%Z ++ [7; 0; 44; 1]%Z).
Proof.
  rewrite (codegen_entry _ _ _
             (mkCodegenItem Sample.main_class Instantiation_empty,
              mkCodegenItem Sample.main_method Instantiation_empty))
    by reflexivity.
  destruct sized_emit_program
    as ([code3 next3 bound3 relocations3] & -> & Hcode & Hrel & Hmain).
  cbn [code relocations bound] in Hcode, Hrel, Hmain. subst.
  unfold finish. cbn [bound relocations code apply_relocations target].
  unfold Label. rewrite Hmain. reflexivity.
Qed.

End SampleSized.

(** ** A graph of 65536 entities *)

Section SampleWide.
#[local] Existing Instance Sample.extern_types.
#[local] Existing Instance Sample.collaborators_wide.


End SampleWide.

